(** * Licensy: the global command-error handler (cogs/cmd_errors.py)

    A shallow embedding of [CmdErrors.on_command_error] and
    [CmdErrors.log_traceback].  The handler is a chain of [isinstance]
    tests over the raised exception; each branch awaits calls on the
    invocation context (send, direct message, reinvoke) or on the
    developer log channel.  Those calls are recorded in a trace and
    their outcome (normal return or a raised exception) is supplied by
    an environment, so that both what the handler does and how it ends
    can be stated. *)

From Stdlib Require Import String Ascii List Bool Arith ZArith QArith Lia.
From Stdlib Require Import Qround DecimalString.
Import ListNotations.
Close Scope Q_scope.
Open Scope nat_scope.
Open Scope string_scope.

(** ** Python string operations used by the handler

    Strings are sequences of characters in the ASCII range, which is
    what discord.py permission flag names and the handler's literals
    are.  Casing is the ASCII one. *)

Module PyStr.

Definition LF : string := String (ascii_of_nat 10) "".

Definition is_upper (c : ascii) : bool :=
  ((65 <=? nat_of_ascii c) && (nat_of_ascii c <=? 90))%nat.

Definition is_lower (c : ascii) : bool :=
  ((97 <=? nat_of_ascii c) && (nat_of_ascii c <=? 122))%nat.

Definition is_cased (c : ascii) : bool := is_upper c || is_lower c.

Definition to_upper (c : ascii) : ascii :=
  if is_lower c then ascii_of_nat (nat_of_ascii c - 32) else c.

Definition to_lower (c : ascii) : ascii :=
  if is_upper c then ascii_of_nat (nat_of_ascii c + 32) else c.

(** [str.title()]: a character that follows a cased character is
    lowercased, any other character is titlecased (uppercased). *)
Fixpoint title_from (previous_is_cased : bool) (s : string) : string :=
  match s with
  | EmptyString => EmptyString
  | String c s' =>
      String (if previous_is_cased then to_lower c else to_upper c)
             (title_from (is_cased c) s')
  end.

Definition title (s : string) : string := title_from false s.

(** [str.replace(old, new)] for a non-empty [old] (both call sites pass
    a non-empty literal): occurrences are replaced from left to right
    and do not overlap.  [skip] counts the characters of the current
    occurrence that are still to be dropped. *)
Fixpoint replace_from (skip : nat) (old new s : string) : string :=
  match s with
  | EmptyString => EmptyString
  | String c s' =>
      match skip with
      | S k => replace_from k old new s'
      | O =>
          if prefix old s
          then new ++ replace_from (String.length old - 1) old new s'
          else String c (replace_from 0 old new s')
      end
  end.

Definition replace (old new s : string) : string := replace_from 0 old new s.

(** [str(n)] for an integer. *)
Definition str_of_Z (n : Z) : string := NilZero.string_of_int (Z.to_int n).

(** [c in s] for a single character. *)
Fixpoint has_char (c : ascii) (s : string) : bool :=
  match s with
  | EmptyString => false
  | String d s' => Ascii.eqb c d || has_char c s'
  end.

(** [needle in s], substring containment. *)
Fixpoint contains (needle s : string) : bool :=
  prefix needle s ||
  match s with
  | EmptyString => false
  | String _ s' => contains needle s'
  end.

End PyStr.

Import PyStr.

(** ** Permission-list formatting (lines 38-42 and 71-75)

    The same three statements occur in the BotMissingPermissions and
    in the MissingPermissions branch; they are shared here. *)

Definition normalize_perm (perm : string) : string :=
  title (replace "guild" "server" (replace "_" " " perm)).

Definition format_missing (missing_perms : list string) : string :=
  let missing := map normalize_perm missing_perms in
  if (2 <? List.length missing)%nat
  then String.concat "**, **" (removelast missing) ++ ", and " ++ last missing ""
  else String.concat " and " missing.

(** The joining rule in the specification's words: the items but the
    last joined by a comma and a space, then [", and "] and the last. *)
Definition spec_join_names (names : list string) : string :=
  match names with
  | [] => ""
  | [a] => a
  | [a; b] => a ++ " and " ++ b
  | _ => String.concat ", " (removelast names) ++ ", and " ++ last names ""
  end.

(** ** Data model *)

(** A raised exception object.  [cls_name] and [cls_module] describe
    [type(e)] (a top-level class); [cls_bases] lists the names of the
    other classes of [type(e).__mro__], so that [isinstance] is a lookup.
    [exn_str] is [str(e)].  [missing_perms], [retry_after], [code] and
    [message] are the attributes the branches read (the last one on the
    classes of helpers/errors.py); [retry_after] is a finite float, kept
    as the rational it denotes.  [format_exception] is the list of lines
    [traceback.format_exception] returns for the object.  [original] is
    the attribute of that name when the object has one. *)
#[warnings="-register-all"] Inductive exn : Type := mk_exn {
  cls_name : string;
  cls_module : string;
  cls_bases : list string;
  exn_str : string;
  missing_perms : list string;
  retry_after : Q;
  code : Z;
  message : string;
  format_exception : list string;
  original : option exn
}.

Definition isinstance (e : exn) (cls : string) : bool :=
  (cls_name e =? cls) || existsb (String.eqb cls) (cls_bases e).

(** [str(type(e))]. *)
Definition type_repr (e : exn) : string :=
  "<class '" ++
  (if cls_module e =? "builtins" then cls_name e
   else cls_module e ++ "." ++ cls_name e) ++ "'>".

(** [getattr(error, "original", error)]. *)
Definition getattr_original (error : exn) : exn :=
  match original error with
  | Some inner => inner
  | None => error
  end.

Record Command := {
  qualified_name : string;
  has_on_error : bool
}.

(** The invocation context: [ctx.command] is [None] when no command was
    resolved; [author_id] is [ctx.message.author.id]. *)
Record Context := {
  command : option Command;
  author_id : Z
}.

(** [hasattr(ctx.command, "on_error")]. *)
Definition hasattr_on_error (ctx : Context) : bool :=
  match command ctx with
  | Some c => has_on_error c
  | None => false
  end.

(** [str(ctx.command)]. *)
Definition command_str (ctx : Context) : string :=
  match command ctx with
  | Some c => qualified_name c
  | None => "None"
  end.

Definition Channel := Z.

(** [self.bot]: the developer registry of its configuration (a dict),
    the readiness flag, the configured log channel id and the channel
    cache lookup. *)
Record Bot := {
  get_developers : list (string * Z);
  is_ready : bool;
  get_developer_log_channel_id : Z;
  get_channel : Z -> option Channel
}.

(** [author.id in get_developers().values()]. *)
Definition is_developer (bot : Bot) (ctx : Context) : bool :=
  existsb (Z.eqb (author_id ctx)) (map snd (get_developers bot)).

(** Modelled from the spec: helpers/embed_handler.py is missing.  The
    summary entry and the stack-trace entry it builds for the diagnostic
    channel are kept as the calls that build them, with their
    arguments. *)
Inductive Embed :=
| log_embed (msg : string) (ctx : Context) (title : string)
| traceback_embed (lines : list string).

Inductive LogArg :=
| LogText (msg : string)
| LogLines (lines : list string).

(** The calls the handler makes on its collaborators. *)
Inductive Event :=
| CtxSend (content : string)
| AuthorSend (content : string)
| CtxReinvoke
| LoggerCritical (arg : LogArg)
| ChannelSend (ch : Channel) (embed : Embed).

Definition Trace := list Event.

(** ** The handler monad

    A computation extends the trace of calls made so far and either
    returns or raises.  The environment decides how each awaited call
    ends, given the trace up to and including that call. *)

Inductive Outcome (A : Type) :=
| Returned (a : A)
| Raised (e : exn).
Arguments Returned {A} a.
Arguments Raised {A} e.

Definition Env := Trace -> option exn.

Definition M (A : Type) := Env -> Trace -> Outcome A * Trace.

Definition ret {A} (a : A) : M A := fun _ tr => (Returned a, tr).

Definition bind {A B} (m : M A) (k : A -> M B) : M B :=
  fun env tr =>
    match m env tr with
    | (Returned a, tr') => k a env tr'
    | (Raised e, tr') => (Raised e, tr')
    end.

(** An awaited call on a collaborator: it is recorded, then it returns
    or raises as the environment says. *)
Definition await (ev : Event) : M unit :=
  fun env tr =>
    let tr' := (tr ++ [ev])%list in
    match env tr' with
    | None => (Returned tt, tr')
    | Some e => (Raised e, tr')
    end.

(** [logger.critical(...)]: the logging module does not raise into its
    caller. *)
Definition logger_critical (arg : LogArg) : M unit :=
  fun _ tr => (Returned tt, (tr ++ [LoggerCritical arg])%list).

(** [try: body / except cls as e: handler e]. *)
Definition try_except {A} (body : M A) (cls : string) (handler : exn -> M A) : M A :=
  fun env tr =>
    match body env tr with
    | (Returned a, tr') => (Returned a, tr')
    | (Raised e, tr') =>
        if isinstance e cls then handler e env tr' else (Raised e, tr')
    end.

Declare Scope handler_scope.
Delimit Scope handler_scope with handler.
Notation "m1 ;; m2" := (bind m1 (fun _ => m2))
  (at level 61, right associativity) : handler_scope.
Open Scope handler_scope.

Definition run {A} (env : Env) (m : M A) : Outcome A * Trace := m env []%list.
Definition outcome_of {A} (env : Env) (m : M A) : Outcome A := fst (run env m).
Definition trace_of {A} (env : Env) (m : M A) : Trace := snd (run env m).

(** ** cogs/cmd_errors.py *)

Definition ctx_send (content : string) : M unit := await (CtxSend content).
Definition author_send (content : string) : M unit := await (AuthorSend content).
Definition ctx_reinvoke : M unit := await CtxReinvoke.
Definition channel_send (ch : Channel) (embed : Embed) : M unit :=
  await (ChannelSend ch embed).

Definition exception_message (ctx : Context) (error : exn) : string :=
  "Ignoring " ++ type_repr error ++ " exception in command '" ++
  command_str ctx ++ "':" ++ exn_str error.

Definition log_traceback (bot : Bot) (ctx : Context) (error : exn) : M unit :=
  let traceback_message := format_exception error in
  logger_critical (LogText (exception_message ctx error)) ;;
  logger_critical (LogLines traceback_message) ;;
  if is_ready bot then
    let log_channel := get_channel bot (get_developer_log_channel_id bot) in
    let embed := log_embed (exception_message ctx error) ctx "Command error!" in
    let traceback_embed := traceback_embed traceback_message in
    match log_channel with
    | Some ch => channel_send ch embed ;; channel_send ch traceback_embed
    | None => ret tt
    end
  else ret tt.

Definition cooldown_message (error : exn) : string :=
  "This command is on cooldown, please retry in " ++
  str_of_Z (Qceiling (retry_after error)) ++ "s.".

Definition unknown_message (ctx : Context) (error : exn) : string :=
  "Ignoring exception **" ++ cls_name error ++
  "** that happened while processing command **" ++ command_str ctx ++
  "**:" ++ LF ++ exn_str error.

Definition on_command_error (bot : Bot) (ctx : Context) (error : exn) : M unit :=
  if hasattr_on_error ctx then ret tt else
  let error := getattr_original error in
  if isinstance error "CommandNotFound" then
    ctx_send "Command not found."
  else if isinstance error "BotMissingPermissions" then
    let fmt := format_missing (missing_perms error) in
    ctx_send ("I need the **" ++ fmt ++ "** permission(s) to run this command.")
  else if isinstance error "DisabledCommand" then
    ctx_send "This command has been disabled."
  else if isinstance error "CommandOnCooldown" then
    if is_developer bot ctx then
      try_except ctx_reinvoke "Exception" (fun e => ctx_send (exn_str e))
    else
      ctx_send (cooldown_message error)
  else if isinstance error "MissingPermissions" then
    let fmt := format_missing (missing_perms error) in
    ctx_send ("You need the **" ++ fmt ++ "** permission(s) to use this command.")
  else if isinstance error "UserInputError" then
    ctx_send ("Invalid command input: " ++ exn_str error)
  else if isinstance error "NoPrivateMessage" then
    try_except
      (author_send "This command cannot be used in direct messages.")
      "Forbidden" (fun _ => ret tt)
  else if isinstance error "CheckFailure" then
    ctx_send "You do not have permission to use this command."
  else if isinstance error "Forbidden" then
    if (code error =? 50013)%Z then
      ctx_send (exn_str error ++ "." ++ LF ++
                "Check role hierarchy - I can only manage roles below me.")
    else if (code error =? 50007)%Z then
      ctx_send (exn_str error ++ "." ++ LF ++ "Hint: Disabled DMs?")
    else
      ctx_send (exn_str error ++ ".")
  else if isinstance error "RoleNotFound" then
    ctx_send (message error)
  else if isinstance error "DefaultGuildRoleNotSet" then
    ctx_send ("Trying to use default guild license but: " ++ message error)
  else if isinstance error "DatabaseMissingData" then
    ctx_send ("Critical database error: " ++ message error) ;;
    log_traceback bot ctx error
  else
    log_traceback bot ctx error ;;
    ctx_send (unknown_message ctx error).

(** The classes the handler tests, in the order of its [isinstance]
    chain, and the first of them an exception is an instance of. *)
Definition handled_classes : list string :=
  [ "CommandNotFound"; "BotMissingPermissions"; "DisabledCommand";
    "CommandOnCooldown"; "MissingPermissions"; "UserInputError";
    "NoPrivateMessage"; "CheckFailure"; "Forbidden"; "RoleNotFound";
    "DefaultGuildRoleNotSet"; "DatabaseMissingData" ].

Definition first_match (e : exn) : option string :=
  find (isinstance e) handled_classes.

(** ** Auxiliary notions used in the statements *)

Definition underscore_to_space (c : ascii) : ascii :=
  if Ascii.eqb c "_" then " "%char else c.

Fixpoint map_chars (f : ascii -> ascii) (s : string) : string :=
  match s with
  | EmptyString => EmptyString
  | String c s' => String (f c) (map_chars f s')
  end.

(** What [title] establishes: no lowercase letter at the start or after
    an uncased character, no uppercase letter after a cased one. *)
Fixpoint titlecased_from (previous_is_cased : bool) (s : string) : bool :=
  match s with
  | EmptyString => true
  | String c s' =>
      (if previous_is_cased then negb (is_upper c) else negb (is_lower c))
      && titlecased_from (is_cased c) s'
  end.

(** Events that belong to diagnostic logging, and replies. *)
Definition is_log_event (ev : Event) : bool :=
  match ev with
  | LoggerCritical _ | ChannelSend _ _ => true
  | _ => false
  end.

Definition is_ctx_send (ev : Event) : bool :=
  match ev with
  | CtxSend _ => true
  | _ => false
  end.

(** The two entries [log_traceback] writes to the process-level log. *)
Definition critical_entries (ctx : Context) (error : exn) : Trace :=
  [ LoggerCritical (LogText (exception_message ctx error));
    LoggerCritical (LogLines (format_exception error)) ].

(** The channel [log_traceback] delivers to: none while the bot is not
    ready or when the channel lookup finds nothing. *)
Definition resolved_log_channel (bot : Bot) : option Channel :=
  if is_ready bot
  then get_channel bot (get_developer_log_channel_id bot)
  else None.

(** The two deliveries to the log channel. *)
Definition summary_delivery (ch : Channel) (ctx : Context) (error : exn) : Event :=
  ChannelSend ch (log_embed (exception_message ctx error) ctx "Command error!").

Definition traceback_delivery (ch : Channel) (error : exn) : Event :=
  ChannelSend ch (traceback_embed (format_exception error)).

(** The same exception object with its [original] attribute removed. *)
Definition without_original (e : exn) : exn :=
  mk_exn (cls_name e) (cls_module e) (cls_bases e) (exn_str e)
         (missing_perms e) (retry_after e) (code e) (message e)
         (format_exception e) None.

(** ** Sample objects for concrete runs *)

Module Sample.

Definition commands_errors : string := "discord.ext.commands.errors".

Definition command_error (name : string) (bases : list string) (text : string) : exn :=
  mk_exn name commands_errors (bases ++ ["CommandError"; "DiscordException"; "Exception"; "BaseException"; "object"])
         text [] 0%Q 0%Z "" ["Traceback (most recent call last):"; name ++ ": " ++ text] None.

Definition with_message (e : exn) (msg : string) : exn :=
  mk_exn (cls_name e) (cls_module e) (cls_bases e) (exn_str e)
         (missing_perms e) (retry_after e) (code e) msg (format_exception e) (original e).

Definition license_command : Command :=
  {| qualified_name := "license"; has_on_error := false |}.

Definition guarded_command : Command :=
  {| qualified_name := "redeem"; has_on_error := true |}.

Definition ctx_member : Context := {| command := Some license_command; author_id := 1001 |}.
Definition ctx_developer : Context := {| command := Some license_command; author_id := 42 |}.
Definition ctx_guarded : Context := {| command := Some guarded_command; author_id := 1001 |}.

Definition bot_ready : Bot :=
  {| get_developers := [("braindead", 42%Z)];
     is_ready := true;
     get_developer_log_channel_id := 555;
     get_channel := fun id => if (id =? 555)%Z then Some 555%Z else None |}.

Definition bot_no_channel : Bot :=
  {| get_developers := [("braindead", 42%Z)];
     is_ready := true;
     get_developer_log_channel_id := 555;
     get_channel := fun _ => None |}.

Definition env_ok : Env := fun _ => None.

Definition http_error : exn :=
  mk_exn "HTTPException" "discord.errors"
         ["DiscordException"; "Exception"; "BaseException"; "object"]
         "500 Internal Server Error (error code: 0)" [] 0%Q 0%Z "" [] None.

Definition dm_forbidden : exn :=
  mk_exn "Forbidden" "discord.errors"
         ["HTTPException"; "DiscordException"; "Exception"; "BaseException"; "object"]
         "403 Forbidden (error code: 50007): Cannot send messages to this user"
         [] 0%Q 50007%Z "" [] None.

Definition role_forbidden : exn :=
  mk_exn "Forbidden" "discord.errors"
         ["HTTPException"; "DiscordException"; "Exception"; "BaseException"; "object"]
         "403 Forbidden (error code: 50013): Missing Permissions"
         [] 0%Q 50013%Z "" [] None.

Definition value_error : exn :=
  mk_exn "ValueError" "builtins" ["Exception"; "BaseException"; "object"]
         "invalid literal" [] 0%Q 0%Z "" ["Traceback (most recent call last):"; "ValueError: invalid literal"] None.

Definition database_missing : exn :=
  with_message (command_error "DatabaseMissingData" [] "guild 7 has no row") "guild 7 has no row".

Definition role_not_found : exn :=
  with_message (command_error "RoleNotFound" [] "role missing") "Role 'vip' was not found.".

Definition on_cooldown : exn :=
  mk_exn "CommandOnCooldown" commands_errors
         ["CommandError"; "DiscordException"; "Exception"; "BaseException"; "object"]
         "You are on cooldown. Try again in 4.25s" [] (17 # 4) 0%Z "" [] None.

Definition no_private_message : exn :=
  command_error "NoPrivateMessage" ["CheckFailure"] "This command cannot be used in private messages.".

Definition invoke_error (inner : exn) : exn :=
  mk_exn "CommandInvokeError" commands_errors
         ["CommandError"; "DiscordException"; "Exception"; "BaseException"; "object"]
         ("Command raised an exception: " ++ cls_name inner ++ ": " ++ exn_str inner)
         [] 0%Q 0%Z "" [] (Some inner).

(** An environment in which every send to a log channel raises. *)
Definition env_channel_down : Env :=
  fun tr =>
    match last tr CtxReinvoke with
    | ChannelSend _ _ => Some http_error
    | _ => None
    end.

(** An environment in which direct messages are refused. *)
Definition env_dm_forbidden : Env :=
  fun tr =>
    match last tr CtxReinvoke with
    | AuthorSend _ => Some dm_forbidden
    | _ => None
    end.

(** An environment in which direct messages fail on the server side. *)
Definition env_dm_http_error : Env :=
  fun tr =>
    match last tr CtxReinvoke with
    | AuthorSend _ => Some http_error
    | _ => None
    end.

(** An environment in which the re-invoked command raises. *)
Definition env_reinvoke_raises : Env :=
  fun tr =>
    match last tr (CtxSend "") with
    | CtxReinvoke => Some value_error
    | _ => None
    end.

End Sample.

From Stdlib Require DecimalPos DecimalZ.

(** ** Invariants of handler computations

    Properties of a computation that hold from any point of a trace, so
    that they compose along [bind] and [try_except]. *)

(** Every call the computation adds satisfies [P]. *)
Definition only (P : Event -> bool) {A : Type} (m : M A) : Prop :=
  forall env tr, forallb P tr = true -> forallb P (snd (m env tr)) = true.

Definition count_replies (tr : Trace) : nat :=
  List.length (filter is_ctx_send tr).

(** The computation adds at most [n] replies on the context. *)
Definition replies_at_most (n : nat) {A : Type} (m : M A) : Prop :=
  forall env tr, count_replies (snd (m env tr)) <= count_replies tr + n.

(** When the computation raises, the exception is the one the last call
    of the trace ended with. *)
Definition raises_from_last_call {A : Type} (m : M A) : Prop :=
  forall env tr x, fst (m env tr) = Raised x -> env (snd (m env tr)) = Some x.

(** The computation never shortens the trace, resp. adds a call. *)
Definition grows {A : Type} (m : M A) : Prop :=
  forall env tr, List.length tr <= List.length (snd (m env tr)).

Definition acts {A : Type} (m : M A) : Prop :=
  forall env tr, List.length tr < List.length (snd (m env tr)).

Definition is_author_send (ev : Event) : bool :=
  match ev with
  | AuthorSend _ => true
  | _ => false
  end.

Definition is_reinvoke (ev : Event) : bool :=
  match ev with
  | CtxReinvoke => true
  | _ => false
  end.

(** [int(s)] for a decimal numeral, the inverse of [str_of_Z]. *)
Definition Z_of_str (s : string) : option Z :=
  option_map Z.of_int (NilZero.int_of_string s).

(** The deliveries the handler may make: those to the channel
    [log_traceback] resolves. *)
Definition to_resolved_channel (bot : Bot) (ev : Event) : bool :=
  match ev with
  | ChannelSend ch _ =>
      match resolved_log_channel bot with
      | Some ch0 => (ch =? ch0)%Z
      | None => false
      end
  | _ => true
  end.

(** Two exception objects that differ at most in the classes they are
    instances of and in their [original] attribute. *)
Definition same_attributes (e1 e2 : exn) : Prop :=
  cls_name e1 = cls_name e2 /\ cls_module e1 = cls_module e2 /\
  exn_str e1 = exn_str e2 /\ missing_perms e1 = missing_perms e2 /\
  retry_after e1 = retry_after e2 /\ code e1 = code e2 /\
  message e1 = message e2 /\ format_exception e1 = format_exception e2.

(** The exception [e] with other base classes. *)
Definition with_bases (e : exn) (bases : list string) : exn :=
  mk_exn (cls_name e) (cls_module e) bases (exn_str e) (missing_perms e)
         (retry_after e) (code e) (message e) (format_exception e) (original e).

(** * Properties *)

(** ** Concrete runs of the string functions *)

Example normalize_manage_guild : normalize_perm "manage_guild" = "Manage Server".
Proof. reflexivity. Qed.

Example normalize_upper_input : normalize_perm "MANAGE_ROLES" = "Manage Roles".
Proof. reflexivity. Qed.

Example format_missing_one : format_missing ["administrator"] = "Administrator".
Proof. reflexivity. Qed.

Example format_missing_two :
  format_missing ["kick_members"; "ban_members"] = "Kick Members and Ban Members".
Proof. reflexivity. Qed.

Example format_missing_three :
  format_missing ["manage_guild"; "kick_members"; "ban_members"]
  = "Manage Server**, **Kick Members, and Ban Members".
Proof. reflexivity. Qed.

Example str_of_Z_examples :
  str_of_Z 0 = "0" /\ str_of_Z 42 = "42" /\ str_of_Z (-7)%Z = "-7".
Proof. repeat split; reflexivity. Qed.

(** ** Normalisation of a permission name *)

Lemma prefix_empty (s : string) : prefix "" s = true.
Proof. now destruct s. Qed.

Lemma replace_underscore_chars (s : string) :
  replace "_" " " s = map_chars underscore_to_space s.
Proof.
  unfold replace.
  induction s as [|c s IH]; [reflexivity|].
  cbn [replace_from map_chars prefix String.length Nat.sub].
  unfold underscore_to_space at 1.
  destruct (ascii_dec "_" c) as [<-|Hne].
  - rewrite prefix_empty, IH. reflexivity.
  - destruct (Ascii.eqb_spec c "_") as [->|_]; [congruence|].
    now rewrite IH.
Qed.

(** [replace] against the behaviour of [str.replace]: a string without
    an occurrence is unchanged, and an occurrence at the front is
    replaced as a whole before the scan goes on behind it. *)
Lemma replace_no_occurrence (old new s : string) :
  contains old s = false -> replace old new s = s.
Proof.
  unfold replace.
  induction s as [|c s IH]; intros H; [reflexivity|].
  cbn [contains] in H. apply orb_false_iff in H as [Hp Hc].
  cbn [replace_from]. rewrite Hp. now rewrite (IH Hc).
Qed.

Lemma replace_from_skips (old new pre s : string) :
  replace_from (String.length pre) old new (pre ++ s) = replace_from 0 old new s.
Proof.
  induction pre as [|c pre IH]; [reflexivity|].
  cbn [String.length append replace_from]. exact IH.
Qed.

Lemma prefix_of_append (n s : string) : prefix n (n ++ s) = true.
Proof.
  induction n as [|c n IH]; cbn [append prefix]; [apply prefix_empty|].
  destruct (ascii_dec c c); [exact IH|congruence].
Qed.

Lemma replace_at_occurrence (c : ascii) (old' new s : string) :
  replace (String c old') new (String c old' ++ s)
  = new ++ replace (String c old') new s.
Proof.
  unfold replace. cbn [append replace_from].
  change (String c (old' ++ s)) with (String c old' ++ s).
  rewrite prefix_of_append.
  cbn [String.length]. rewrite Nat.sub_succ, Nat.sub_0_r.
  now rewrite replace_from_skips.
Qed.

Example replace_does_not_overlap : replace "aa" "b" "aaa" = "ba".
Proof. reflexivity. Qed.

Example replace_guild_twice :
  replace "guild" "server" "guild_guildmaster" = "server_servermaster".
Proof. reflexivity. Qed.

Lemma has_char_append (c : ascii) (s t : string) :
  has_char c (s ++ t) = has_char c s || has_char c t.
Proof.
  induction s as [|d s IH]; simpl; [reflexivity|].
  now rewrite IH, orb_assoc.
Qed.

Lemma replace_underscore_clears (s : string) :
  has_char "_" (replace "_" " " s) = false.
Proof.
  rewrite replace_underscore_chars.
  induction s as [|c s IH]; [reflexivity|].
  cbn [map_chars has_char].
  rewrite IH, orb_false_r. unfold underscore_to_space.
  destruct (Ascii.eqb_spec c "_") as [->|Hne]; [reflexivity|].
  apply Ascii.eqb_neq. congruence.
Qed.

Lemma replace_from_keeps_clear (c : ascii) (old new s : string) (skip : nat) :
  has_char c new = false ->
  has_char c s = false ->
  has_char c (replace_from skip old new s) = false.
Proof.
  intros Hnew. revert skip.
  induction s as [|d s IH]; intros skip Hs; [reflexivity|].
  cbn [has_char replace_from] in *.
  apply orb_false_iff in Hs as [Hd Hs].
  destruct skip as [|k]; [|now apply IH].
  destruct (prefix old (String d s)).
  - rewrite has_char_append, Hnew. now apply IH.
  - cbn [has_char]. rewrite Hd. now apply IH.
Qed.

Lemma to_upper_not_underscore (c : ascii) :
  Ascii.eqb "_" c = false -> Ascii.eqb "_" (to_upper c) = false.
Proof.
  destruct c as [[] [] [] [] [] [] [] []]; vm_compute; congruence.
Qed.

Lemma to_lower_not_underscore (c : ascii) :
  Ascii.eqb "_" c = false -> Ascii.eqb "_" (to_lower c) = false.
Proof.
  destruct c as [[] [] [] [] [] [] [] []]; vm_compute; congruence.
Qed.

Lemma title_from_keeps_clear (s : string) (prev : bool) :
  has_char "_" s = false -> has_char "_" (title_from prev s) = false.
Proof.
  revert prev.
  induction s as [|c s IH]; intros prev Hs; [reflexivity|].
  cbn [has_char title_from] in *.
  apply orb_false_iff in Hs as [Hc Hs].
  rewrite (IH _ Hs), orb_false_r.
  destruct prev; [now apply to_lower_not_underscore|now apply to_upper_not_underscore].
Qed.

Lemma normalize_perm_no_underscore (p : string) :
  has_char "_" (normalize_perm p) = false.
Proof.
  unfold normalize_perm, title.
  apply title_from_keeps_clear.
  apply replace_from_keeps_clear; [reflexivity|].
  apply replace_underscore_clears.
Qed.

Lemma is_cased_to_upper (c : ascii) : is_cased (to_upper c) = is_cased c.
Proof. destruct c as [[] [] [] [] [] [] [] []]; reflexivity. Qed.

Lemma is_cased_to_lower (c : ascii) : is_cased (to_lower c) = is_cased c.
Proof. destruct c as [[] [] [] [] [] [] [] []]; reflexivity. Qed.

Lemma to_upper_not_lower (c : ascii) : is_lower (to_upper c) = false.
Proof. destruct c as [[] [] [] [] [] [] [] []]; reflexivity. Qed.

Lemma to_lower_not_upper (c : ascii) : is_upper (to_lower c) = false.
Proof. destruct c as [[] [] [] [] [] [] [] []]; reflexivity. Qed.

Lemma title_from_titlecased (s : string) (prev : bool) :
  titlecased_from prev (title_from prev s) = true.
Proof.
  revert prev.
  induction s as [|c s IH]; intros prev; simpl; [reflexivity|].
  destruct prev.
  - now rewrite to_lower_not_upper, is_cased_to_lower, IH.
  - now rewrite to_upper_not_lower, is_cased_to_upper, IH.
Qed.

Lemma normalize_perm_titlecased (p : string) :
  titlecased_from false (normalize_perm p) = true.
Proof. apply title_from_titlecased. Qed.

(** ** The joining rule *)

Lemma format_missing_single (p : string) :
  format_missing [p] = normalize_perm p.
Proof. reflexivity. Qed.

Lemma format_missing_pair (p q : string) :
  format_missing [p; q] = normalize_perm p ++ " and " ++ normalize_perm q.
Proof. reflexivity. Qed.

Lemma format_missing_many (a b : string) (rest : list string) (lst : string) :
  format_missing (a :: b :: rest ++ [lst])%list
  = String.concat "**, **" (map normalize_perm (a :: b :: rest))
    ++ ", and " ++ normalize_perm lst.
Proof.
  unfold format_missing.
  change (a :: b :: rest ++ [lst])%list with ((a :: b :: rest) ++ [lst])%list.
  rewrite map_app. cbn [map].
  rewrite removelast_last, last_last.
  replace (2 <? _)%nat with true; [reflexivity|].
  symmetry. apply Nat.ltb_lt.
  rewrite length_app. cbn [List.length map]. lia.
Qed.

(** ** Substring facts for the message templates *)

Lemma contains_here (n s : string) : contains n (n ++ s) = true.
Proof.
  destruct (n ++ s) eqn:E; cbn [contains]; rewrite <- E, prefix_of_append; reflexivity.
Qed.

Lemma contains_later (n p s : string) :
  contains n s = true -> contains n (p ++ s) = true.
Proof.
  intros H. induction p as [|c p IH]; cbn [append contains]; [exact H|].
  rewrite IH. apply orb_true_r.
Qed.

Lemma contains_inside (n p s : string) : contains n (p ++ n ++ s) = true.
Proof. apply contains_later, contains_here. Qed.

(** ** The handler monad on the empty trace *)

Lemma run_await (env : Env) (ev : Event) :
  run env (await ev)
  = (match env [ev] with None => Returned tt | Some e => Raised e end, [ev]).
Proof. unfold run, await. cbn [app]. now destruct (env [ev]). Qed.

(** ** Which branch is taken *)

(** From [first_match e = r], the value of every [isinstance] test the
    chain performs before it stops. *)
Ltac chain_facts H :=
  unfold first_match, handled_classes in H; cbn [find] in H;
  repeat match type of H with
  | (if isinstance ?e ?c then _ else _) = _ =>
      let E := fresh "Hcls" in
      destruct (isinstance e c) eqn:E; [try discriminate H|]
  end;
  try discriminate H.

Ltac take_branch Hon H :=
  chain_facts H;
  unfold on_command_error; rewrite Hon; cbv zeta;
  repeat match goal with
  | E : isinstance _ _ = _ |- _ => rewrite E; clear E
  end.

Lemma branch_command_not_found bot ctx error :
  hasattr_on_error ctx = false ->
  first_match (getattr_original error) = Some "CommandNotFound" ->
  on_command_error bot ctx error = ctx_send "Command not found.".
Proof. intros Hon H. take_branch Hon H. reflexivity. Qed.

Lemma branch_bot_missing_permissions bot ctx error :
  hasattr_on_error ctx = false ->
  first_match (getattr_original error) = Some "BotMissingPermissions" ->
  on_command_error bot ctx error
  = ctx_send ("I need the **" ++ format_missing (missing_perms (getattr_original error))
              ++ "** permission(s) to run this command.").
Proof. intros Hon H. take_branch Hon H. reflexivity. Qed.

Lemma branch_missing_permissions bot ctx error :
  hasattr_on_error ctx = false ->
  first_match (getattr_original error) = Some "MissingPermissions" ->
  on_command_error bot ctx error
  = ctx_send ("You need the **" ++ format_missing (missing_perms (getattr_original error))
              ++ "** permission(s) to use this command.").
Proof. intros Hon H. take_branch Hon H. reflexivity. Qed.

Lemma branch_command_on_cooldown bot ctx error :
  hasattr_on_error ctx = false ->
  first_match (getattr_original error) = Some "CommandOnCooldown" ->
  on_command_error bot ctx error
  = if is_developer bot ctx
    then try_except ctx_reinvoke "Exception" (fun e => ctx_send (exn_str e))
    else ctx_send (cooldown_message (getattr_original error)).
Proof. intros Hon H. take_branch Hon H. reflexivity. Qed.

Lemma branch_no_private_message bot ctx error :
  hasattr_on_error ctx = false ->
  first_match (getattr_original error) = Some "NoPrivateMessage" ->
  on_command_error bot ctx error
  = try_except (author_send "This command cannot be used in direct messages.")
               "Forbidden" (fun _ => ret tt).
Proof. intros Hon H. take_branch Hon H. reflexivity. Qed.

Lemma branch_forbidden bot ctx error :
  hasattr_on_error ctx = false ->
  first_match (getattr_original error) = Some "Forbidden" ->
  on_command_error bot ctx error
  = let e := getattr_original error in
    if (code e =? 50013)%Z then
      ctx_send (exn_str e ++ "." ++ LF ++
                "Check role hierarchy - I can only manage roles below me.")
    else if (code e =? 50007)%Z then
      ctx_send (exn_str e ++ "." ++ LF ++ "Hint: Disabled DMs?")
    else ctx_send (exn_str e ++ ".").
Proof. intros Hon H. take_branch Hon H. reflexivity. Qed.

Lemma branch_role_not_found bot ctx error :
  hasattr_on_error ctx = false ->
  first_match (getattr_original error) = Some "RoleNotFound" ->
  on_command_error bot ctx error = ctx_send (message (getattr_original error)).
Proof. intros Hon H. take_branch Hon H. reflexivity. Qed.

Lemma branch_database_missing_data bot ctx error :
  hasattr_on_error ctx = false ->
  first_match (getattr_original error) = Some "DatabaseMissingData" ->
  on_command_error bot ctx error
  = (ctx_send ("Critical database error: " ++ message (getattr_original error)) ;;
     log_traceback bot ctx (getattr_original error)).
Proof. intros Hon H. take_branch Hon H. reflexivity. Qed.

Lemma branch_unknown bot ctx error :
  hasattr_on_error ctx = false ->
  first_match (getattr_original error) = None ->
  on_command_error bot ctx error
  = (log_traceback bot ctx (getattr_original error) ;;
     ctx_send (unknown_message ctx (getattr_original error))).
Proof. intros Hon H. take_branch Hon H. reflexivity. Qed.

(** ** A command with its own error handler *)

(** C5: when the command of the context declares its own error handler
    ([ctx.command] has an [on_error] attribute), the global handler
    returns at once, for every error and every environment: the trace of
    calls is empty, so there is no reply, no direct message, no
    re-invocation and no log entry. *)
Theorem local_handler_defers bot ctx error env :
  hasattr_on_error ctx = true ->
  run env (on_command_error bot ctx error) = (Returned tt, []).
Proof.
  intros Hon. unfold on_command_error. rewrite Hon. reflexivity.
Qed.

Lemma local_handler_defers_witness :
  hasattr_on_error Sample.ctx_guarded = true /\
  run Sample.env_channel_down
      (on_command_error Sample.bot_ready Sample.ctx_guarded Sample.value_error)
  = (Returned tt, []).
Proof.
  split; [reflexivity|].
  apply (local_handler_defers Sample.bot_ready Sample.ctx_guarded
                              Sample.value_error Sample.env_channel_down).
  reflexivity.
Defined.

(** ** Unwrapping of the original exception *)

Lemma getattr_original_without (e : exn) :
  getattr_original (without_original e) = without_original e.
Proof. reflexivity. Qed.

Lemma log_traceback_without_original bot ctx e :
  log_traceback bot ctx (without_original e) = log_traceback bot ctx e.
Proof. reflexivity. Qed.

(** C10: an error that carries an [original] attribute is replaced by
    that inner exception before anything else is looked at: the run of
    the handler on the wrapper is the run on the inner exception taken
    alone (its own [original], if it has one, is not followed), so the
    wrapper's class, text and attributes take no part in the
    classification, the reply or the log.  An error without the
    attribute is handled as it is. *)
Theorem original_error_is_handled bot ctx env wrapper inner plain :
  original wrapper = Some inner ->
  original plain = None ->
  (getattr_original wrapper = inner /\
   first_match (getattr_original wrapper) = first_match (without_original inner) /\
   run env (on_command_error bot ctx wrapper)
   = run env (on_command_error bot ctx (without_original inner))) /\
  getattr_original plain = plain.
Proof.
  intros Hw Hp.
  assert (Hg : getattr_original wrapper = inner)
    by (unfold getattr_original; now rewrite Hw).
  split; [split; [exact Hg|split]|].
  - rewrite Hg. reflexivity.
  - unfold on_command_error. rewrite Hg, getattr_original_without. reflexivity.
  - unfold getattr_original. now rewrite Hp.
Qed.

Lemma original_error_is_handled_witness :
  original (Sample.invoke_error Sample.value_error) = Some Sample.value_error /\
  original Sample.on_cooldown = None /\
  run Sample.env_ok
      (on_command_error Sample.bot_ready Sample.ctx_member
                        (Sample.invoke_error Sample.value_error))
  = run Sample.env_ok
      (on_command_error Sample.bot_ready Sample.ctx_member
                        (without_original Sample.value_error)).
Proof.
  split; [reflexivity|]. split; [reflexivity|].
  apply (original_error_is_handled Sample.bot_ready Sample.ctx_member Sample.env_ok
           (Sample.invoke_error Sample.value_error) Sample.value_error
           Sample.on_cooldown); reflexivity.
Defined.

Lemma without_original_plain (e : exn) :
  original e = None -> without_original e = e.
Proof. destruct e. cbn. now intros ->. Qed.

(** The usual case, a wrapper around an exception that wraps nothing. *)
Corollary wrapper_handled_as_inner bot ctx env wrapper inner :
  original wrapper = Some inner ->
  original inner = None ->
  run env (on_command_error bot ctx wrapper) = run env (on_command_error bot ctx inner).
Proof.
  intros Hw Hi. unfold on_command_error, getattr_original.
  now rewrite Hw, Hi.
Qed.

(** Two wrappers around the same exception are handled alike. *)
Corollary wrappers_indistinguishable bot ctx env w1 w2 inner :
  original w1 = Some inner -> original w2 = Some inner ->
  run env (on_command_error bot ctx w1) = run env (on_command_error bot ctx w2).
Proof.
  intros H1 H2. unfold on_command_error, getattr_original.
  now rewrite H1, H2.
Qed.

(** ** Forbidden *)

(** C7: for a Forbidden error the handler makes exactly one call, a
    reply whose text is the string form of the error followed by a
    suffix fixed by the numeric code: for 50013 a full stop, a line feed
    and the role-hierarchy sentence; for 50007 a full stop, a line feed
    and the disabled-DMs hint; for any other code a full stop alone. *)
Theorem forbidden_reply_by_code bot ctx env error :
  hasattr_on_error ctx = false ->
  first_match (getattr_original error) = Some "Forbidden" ->
  let e := getattr_original error in
  LF = String (ascii_of_nat 10) "" /\
  trace_of env (on_command_error bot ctx error)
  = [CtxSend
       (if (code e =? 50013)%Z then
          exn_str e ++ "." ++ LF ++
          "Check role hierarchy - I can only manage roles below me."
        else if (code e =? 50007)%Z then
          exn_str e ++ "." ++ LF ++ "Hint: Disabled DMs?"
        else exn_str e ++ ".")].
Proof.
  intros Hon H e. split; [reflexivity|].
  rewrite (branch_forbidden bot ctx error Hon H). cbv zeta. fold e.
  unfold trace_of.
  destruct (code e =? 50013)%Z; [|destruct (code e =? 50007)%Z];
    unfold ctx_send; rewrite run_await; reflexivity.
Qed.

Lemma forbidden_reply_by_code_witness :
  trace_of Sample.env_ok
    (on_command_error Sample.bot_ready Sample.ctx_member Sample.role_forbidden)
  = [CtxSend ("403 Forbidden (error code: 50013): Missing Permissions." ++ LF ++
              "Check role hierarchy - I can only manage roles below me.")].
Proof.
  apply (forbidden_reply_by_code Sample.bot_ready Sample.ctx_member Sample.env_ok
           Sample.role_forbidden); reflexivity.
Defined.

Example forbidden_dm_hint :
  trace_of Sample.env_ok
    (on_command_error Sample.bot_ready Sample.ctx_member
                      (Sample.invoke_error Sample.dm_forbidden))
  = [CtxSend ("403 Forbidden (error code: 50007): Cannot send messages to this user."
              ++ LF ++ "Hint: Disabled DMs?")].
Proof. reflexivity. Qed.

(** ** NoPrivateMessage *)

(** C9: for a NoPrivateMessage error the only call is the direct
    message to the author (nothing is sent to the channel).  The handler
    returns normally when the delivery succeeds or raises a Forbidden;
    any other exception raised by the delivery leaves the handler. *)
Theorem no_private_message_dm_only bot ctx env error :
  hasattr_on_error ctx = false ->
  first_match (getattr_original error) = Some "NoPrivateMessage" ->
  let dm := AuthorSend "This command cannot be used in direct messages." in
  trace_of env (on_command_error bot ctx error) = [dm] /\
  outcome_of env (on_command_error bot ctx error)
  = match env [dm] with
    | None => Returned tt
    | Some x => if isinstance x "Forbidden" then Returned tt else Raised x
    end.
Proof.
  intros Hon H dm.
  rewrite (branch_no_private_message bot ctx error Hon H).
  unfold trace_of, outcome_of, run, try_except, author_send, await, ret.
  cbn [app]. fold dm.
  destruct (env [dm]) as [x|]; cbn [fst snd]; [|now split].
  destruct (isinstance x "Forbidden"); now split.
Qed.

Lemma no_private_message_dm_only_witness :
  let dm := AuthorSend "This command cannot be used in direct messages." in
  trace_of Sample.env_dm_forbidden
    (on_command_error Sample.bot_ready Sample.ctx_member Sample.no_private_message)
  = [dm] /\
  outcome_of Sample.env_dm_forbidden
    (on_command_error Sample.bot_ready Sample.ctx_member Sample.no_private_message)
  = Returned tt.
Proof.
  apply (no_private_message_dm_only Sample.bot_ready Sample.ctx_member
           Sample.env_dm_forbidden Sample.no_private_message); reflexivity.
Defined.

Example no_private_message_other_failure :
  run Sample.env_dm_http_error
    (on_command_error Sample.bot_ready Sample.ctx_member Sample.no_private_message)
  = (Raised Sample.http_error,
     [AuthorSend "This command cannot be used in direct messages."]).
Proof. reflexivity. Qed.

(** ** Diagnostic logging *)

Lemma append_empty_r (s : string) : s ++ "" = s.
Proof. induction s as [|c s IH]; cbn [append]; [reflexivity|now rewrite IH]. Qed.

Lemma contains_itself (n : string) : contains n n = true.
Proof. rewrite <- (append_empty_r n) at 2. apply contains_here. Qed.

Lemma contains_in_left (n a b : string) :
  contains n a = true -> contains n (a ++ b) = true.
Proof.
  assert (Hp : forall n a, prefix n a = true -> prefix n (a ++ b) = true).
  { clear. induction n as [|c n IH]; intros a H; [apply prefix_empty|].
    destruct a as [|d a]; cbn [prefix append] in *; [discriminate|].
    destruct (ascii_dec c d); [now apply IH|discriminate]. }
  induction a as [|d a IH]; intros H.
  - cbn [contains] in H. rewrite orb_false_r in H.
    destruct n; [|discriminate]. destruct ("" ++ b); reflexivity.
  - cbn [contains append] in *. apply orb_true_iff in H as [H|H].
    + change (String d (a ++ b)) with (String d a ++ b).
      now rewrite (Hp _ _ H).
    + rewrite (IH H). apply orb_true_r.
Qed.

Lemma type_repr_names_class (e : exn) : contains (cls_name e) (type_repr e) = true.
Proof.
  unfold type_repr. destruct (cls_module e =? "builtins").
  - apply contains_inside.
  - apply contains_later, contains_in_left.
    do 2 apply contains_later. apply contains_itself.
Qed.

Lemma exception_message_content (ctx : Context) (e : exn) :
  contains (cls_name e) (exception_message ctx e) = true /\
  contains (command_str ctx) (exception_message ctx e) = true /\
  contains (exn_str e) (exception_message ctx e) = true.
Proof.
  unfold exception_message. repeat split.
  - apply contains_later, contains_in_left, type_repr_names_class.
  - do 2 apply contains_later. apply contains_inside.
  - do 5 apply contains_later. apply contains_itself.
Qed.

(** The run of [log_traceback] from any point of a trace. *)
Lemma log_traceback_from bot ctx error env tr :
  log_traceback bot ctx error env tr
  = let entries := (tr ++ critical_entries ctx error)%list in
    match resolved_log_channel bot with
    | None => (Returned tt, entries)
    | Some ch =>
        let s1 := (entries ++ [summary_delivery ch ctx error])%list in
        let s2 := (s1 ++ [traceback_delivery ch error])%list in
        match env s1 with
        | Some x => (Raised x, s1)
        | None =>
            (match env s2 with Some x => Raised x | None => Returned tt end, s2)
        end
    end.
Proof.
  unfold log_traceback, resolved_log_channel, critical_entries, bind,
    logger_critical, channel_send, await, ret, summary_delivery, traceback_delivery.
  cbv zeta. rewrite <- !app_assoc. cbn [app].
  destruct (is_ready bot); [|reflexivity].
  destruct (get_channel bot (get_developer_log_channel_id bot)) as [ch|]; [|reflexivity].
  rewrite <- !app_assoc. cbn [app].
  destruct (env _) as [x|]; [reflexivity|].
  rewrite <- !app_assoc. cbn [app].
  now destruct (env _).
Qed.

Lemma log_traceback_entries_first bot ctx error env tr :
  exists rest,
    snd (log_traceback bot ctx error env tr)
    = (tr ++ critical_entries ctx error ++ rest)%list /\
    filter is_ctx_send rest = [].
Proof.
  rewrite log_traceback_from. cbv zeta.
  destruct (resolved_log_channel bot) as [ch|].
  - destruct (env _) as [x|].
    + exists [summary_delivery ch ctx error]. cbn [snd].
      now rewrite <- app_assoc.
    + exists [summary_delivery ch ctx error; traceback_delivery ch error].
      cbn [snd]. now rewrite <- !app_assoc.
  - exists []. cbn [snd]. now rewrite app_nil_r.
Qed.

(** C8 (as amended): [log_traceback] first writes two entries to the
    process-level critical log, whatever the bot state and the
    environment: a line that holds the error's type, the command name
    and the error's text, and the formatted stack trace.  When no log
    channel is resolved (bot not ready, or the lookup of the configured
    id finds nothing) it stops there and returns normally.  When a
    channel is resolved it then delivers the summary and the stack
    trace to it; an exception raised by one of these two deliveries is
    not caught and leaves [log_traceback]. *)
Theorem log_traceback_critical_then_channel bot ctx env error :
  let entries := critical_entries ctx error in
  (contains (cls_name error) (exception_message ctx error) = true /\
   contains (command_str ctx) (exception_message ctx error) = true /\
   contains (exn_str error) (exception_message ctx error) = true) /\
  (exists rest,
     trace_of env (log_traceback bot ctx error) = (entries ++ rest)%list /\
     filter is_ctx_send rest = []) /\
  match resolved_log_channel bot with
  | None => run env (log_traceback bot ctx error) = (Returned tt, entries)
  | Some ch =>
      let s1 := (entries ++ [summary_delivery ch ctx error])%list in
      let s2 := (s1 ++ [traceback_delivery ch error])%list in
      run env (log_traceback bot ctx error)
      = match env s1 with
        | Some x => (Raised x, s1)
        | None =>
            (match env s2 with Some x => Raised x | None => Returned tt end, s2)
        end
  end.
Proof.
  intros entries. split; [apply exception_message_content|]. split.
  - apply (log_traceback_entries_first bot ctx error env []).
  - unfold run. rewrite log_traceback_from. cbv zeta. cbn [app]. fold entries.
    now destruct (resolved_log_channel bot).
Qed.

(** C8, the claim as worded fails: with a resolved channel whose send
    raises, [log_traceback] raises. *)
Lemma log_traceback_can_raise :
  run Sample.env_channel_down
      (log_traceback Sample.bot_ready Sample.ctx_member Sample.value_error)
  = (Raised Sample.http_error,
     (critical_entries Sample.ctx_member Sample.value_error
      ++ [summary_delivery 555%Z Sample.ctx_member Sample.value_error])%list).
Proof. reflexivity. Qed.

Example log_traceback_unresolved_channel :
  run Sample.env_channel_down
      (log_traceback Sample.bot_no_channel Sample.ctx_member Sample.value_error)
  = (Returned tt,
     [ LoggerCritical
         (LogText "Ignoring <class 'ValueError'> exception in command 'license':invalid literal");
       LoggerCritical
         (LogLines ["Traceback (most recent call last):"; "ValueError: invalid literal"]) ]).
Proof. reflexivity. Qed.

(** ** Branches that log *)

Lemma database_branch_run bot ctx env error :
  hasattr_on_error ctx = false ->
  first_match (getattr_original error) = Some "DatabaseMissingData" ->
  let e := getattr_original error in
  let reply := CtxSend ("Critical database error: " ++ message e) in
  run env (on_command_error bot ctx error)
  = match env [reply] with
    | Some x => (Raised x, [reply])
    | None => log_traceback bot ctx e env [reply]
    end.
Proof.
  intros Hon H e reply.
  rewrite (branch_database_missing_data bot ctx error Hon H).
  unfold run, bind, ctx_send, await. cbn [app]. fold e reply.
  now destruct (env [reply]).
Qed.

Lemma unknown_branch_run bot ctx env error :
  hasattr_on_error ctx = false ->
  first_match (getattr_original error) = None ->
  let e := getattr_original error in
  run env (on_command_error bot ctx error)
  = match run env (log_traceback bot ctx e) with
    | (Returned _, tr) =>
        (match env (tr ++ [CtxSend (unknown_message ctx e)])%list with
         | Some x => Raised x
         | None => Returned tt
         end, (tr ++ [CtxSend (unknown_message ctx e)])%list)
    | (Raised x, tr) => (Raised x, tr)
    end.
Proof.
  intros Hon H e.
  rewrite (branch_unknown bot ctx error Hon H).
  unfold run, bind, ctx_send, await. fold e.
  destruct (log_traceback bot ctx e env []) as [[[]|x] tr]; [|reflexivity].
  now destruct (env _).
Qed.

(** C2 (as amended): a failure raised while the diagnostic log is
    delivered is not caught by the handler, it leaves
    [on_command_error], in the DatabaseMissingData branch as in the
    fallback branch.  [start] is the trace at which [log_traceback] is
    called: the reply alone in the DatabaseMissingData branch, where the
    reply has been sent (and has returned) before logging starts, and
    the empty trace in the fallback.  The handler's trace opens with
    [start] and the two critical log entries. *)
Theorem log_failure_leaves_handler bot ctx env error x :
  hasattr_on_error ctx = false ->
  let e := getattr_original error in
  let reply := CtxSend ("Critical database error: " ++ message e) in
  let start := match first_match e with Some _ => [reply] | None => [] end in
  (first_match e = Some "DatabaseMissingData" /\ env [reply] = None) \/
  first_match e = None ->
  fst (log_traceback bot ctx e env start) = Raised x ->
  outcome_of env (on_command_error bot ctx error) = Raised x /\
  exists rest,
    trace_of env (on_command_error bot ctx error)
    = (start ++ critical_entries ctx e ++ rest)%list.
Proof.
  intros Hon e reply start [[Hdb Hsend]|Hnone] Hx; unfold start in *.
  - rewrite Hdb in *.
    pose proof (database_branch_run bot ctx env error Hon Hdb) as Hrun.
    cbv zeta in Hrun. fold e reply in Hrun. rewrite Hsend in Hrun.
    unfold outcome_of, trace_of. rewrite Hrun. split; [exact Hx|].
    destruct (log_traceback_entries_first bot ctx e env [reply]) as (rest & -> & _).
    now exists rest.
  - rewrite Hnone in *.
    pose proof (unknown_branch_run bot ctx env error Hon Hnone) as Hrun.
    cbv zeta in Hrun. fold e in Hrun.
    destruct (log_traceback_entries_first bot ctx e env []) as (rest & Htr & _).
    unfold outcome_of, trace_of. rewrite Hrun. unfold run in *.
    destruct (log_traceback bot ctx e env []) as [[[]|z] tr];
      cbn [fst snd] in *; [discriminate Hx|].
    split; [exact Hx|]. now exists rest.
Qed.

Lemma log_failure_leaves_handler_witness :
  outcome_of Sample.env_channel_down
    (on_command_error Sample.bot_ready Sample.ctx_member Sample.database_missing)
  = Raised Sample.http_error /\
  outcome_of Sample.env_channel_down
    (on_command_error Sample.bot_ready Sample.ctx_member Sample.value_error)
  = Raised Sample.http_error.
Proof.
  pose proof (log_failure_leaves_handler Sample.bot_ready Sample.ctx_member
                Sample.env_channel_down Sample.database_missing Sample.http_error
                eq_refl (or_introl (conj eq_refl eq_refl)) eq_refl)
    as [Hdb _].
  pose proof (log_failure_leaves_handler Sample.bot_ready Sample.ctx_member
                Sample.env_channel_down Sample.value_error Sample.http_error
                eq_refl (or_intror eq_refl) eq_refl)
    as [Hother _].
  split; [exact Hdb|exact Hother].
Defined.

(** C2, the claim as worded fails: the delivery of the log raises and
    the handler ends by raising that exception. *)
Lemma log_failure_crashes_handler :
  outcome_of Sample.env_channel_down
    (log_traceback Sample.bot_ready Sample.ctx_member Sample.database_missing)
  = Raised Sample.http_error /\
  outcome_of Sample.env_channel_down
    (on_command_error Sample.bot_ready Sample.ctx_member Sample.database_missing)
  = Raised Sample.http_error /\
  outcome_of Sample.env_channel_down
    (on_command_error Sample.bot_ready Sample.ctx_member Sample.database_missing)
  <> Returned tt.
Proof. repeat split; try reflexivity. discriminate. Qed.

(** In the fallback branch the log comes before the reply: when its
    delivery raises, no reply has been sent. *)
Lemma unknown_log_failure_before_reply bot ctx env error x :
  hasattr_on_error ctx = false ->
  first_match (getattr_original error) = None ->
  outcome_of env (log_traceback bot ctx (getattr_original error)) = Raised x ->
  filter is_ctx_send (trace_of env (on_command_error bot ctx error)) = [].
Proof.
  intros Hon H Hx. unfold trace_of, outcome_of in *.
  rewrite (unknown_branch_run bot ctx env error Hon H). cbv zeta.
  destruct (log_traceback_entries_first bot ctx (getattr_original error) env [])
    as (rest & Htr & Hrest).
  unfold run in *.
  destruct (log_traceback bot ctx (getattr_original error) env [])
    as [[[]|z] tr]; cbn [fst snd] in *; [discriminate|].
  subst tr. cbn [app]. unfold critical_entries. cbn [app filter is_ctx_send].
  exact Hrest.
Qed.

Example unknown_log_failure_run :
  run Sample.env_channel_down
    (on_command_error Sample.bot_ready Sample.ctx_member Sample.value_error)
  = (Raised Sample.http_error,
     (critical_entries Sample.ctx_member Sample.value_error
      ++ [summary_delivery 555%Z Sample.ctx_member Sample.value_error])%list).
Proof. reflexivity. Qed.

(** C6 (as amended): for a DatabaseMissingData error the first call is
    the reply "Critical database error: " followed by the error's
    message.  When that send returns, [log_traceback] is called: the two
    critical log entries follow the reply in the trace.  When it raises,
    the exception leaves the handler and nothing is logged.  For a
    RoleNotFound error the one call is the reply carrying the error's
    message, in every environment; the trace holds no log entry and no
    delivery to the log channel. *)
Theorem database_error_is_logged_role_error_is_not
    bot ctx env error_db error_role :
  hasattr_on_error ctx = false ->
  first_match (getattr_original error_db) = Some "DatabaseMissingData" ->
  first_match (getattr_original error_role) = Some "RoleNotFound" ->
  let db := getattr_original error_db in
  let reply := CtxSend ("Critical database error: " ++ message db) in
  (contains (message db) ("Critical database error: " ++ message db) = true /\
   (exists rest, trace_of env (on_command_error bot ctx error_db) = reply :: rest) /\
   match env [reply] with
   | None =>
       run env (on_command_error bot ctx error_db)
       = log_traceback bot ctx db env [reply] /\
       exists rest,
         trace_of env (on_command_error bot ctx error_db)
         = (reply :: critical_entries ctx db ++ rest)%list /\
         filter is_ctx_send rest = []
   | Some x =>
       run env (on_command_error bot ctx error_db) = (Raised x, [reply])
   end) /\
  (trace_of env (on_command_error bot ctx error_role)
   = [CtxSend (message (getattr_original error_role))] /\
   filter is_log_event (trace_of env (on_command_error bot ctx error_role)) = []).
Proof.
  intros Hon Hdb Hrole db reply.
  pose proof (database_branch_run bot ctx env error_db Hon Hdb) as Hrun.
  cbv zeta in Hrun. fold db reply in Hrun.
  destruct (log_traceback_entries_first bot ctx db env [reply])
    as (rest & Htr & Hrest).
  split; [split; [|split]|].
  - apply contains_later, contains_itself.
  - unfold trace_of. rewrite Hrun.
    destruct (env [reply]); [now exists []|].
    rewrite Htr. now eexists.
  - destruct (env [reply]) as [x|]; [exact Hrun|].
    split; [exact Hrun|].
    unfold trace_of. rewrite Hrun, Htr. now exists rest.
  - unfold trace_of.
    rewrite (branch_role_not_found bot ctx error_role Hon Hrole).
    unfold ctx_send. rewrite run_await. now split.
Qed.

Lemma database_error_is_logged_role_error_is_not_witness :
  trace_of Sample.env_channel_down
    (on_command_error Sample.bot_no_channel Sample.ctx_member Sample.database_missing)
  = (CtxSend "Critical database error: guild 7 has no row"
     :: critical_entries Sample.ctx_member Sample.database_missing)%list /\
  trace_of Sample.env_channel_down
    (on_command_error Sample.bot_no_channel Sample.ctx_member Sample.role_not_found)
  = [CtxSend "Role 'vip' was not found."].
Proof.
  pose proof (database_error_is_logged_role_error_is_not
                Sample.bot_no_channel Sample.ctx_member Sample.env_channel_down
                Sample.database_missing Sample.role_not_found
                eq_refl eq_refl eq_refl)
    as [[_ [_ [Hdb _]]] [Hrole _]].
  split; [|exact Hrole].
  unfold trace_of. rewrite Hdb. reflexivity.
Defined.

(** C6, the claim as worded fails: when the reply cannot be sent, a
    DatabaseMissingData error gets no diagnostic log call. *)
Lemma database_error_without_log_call :
  first_match (getattr_original Sample.database_missing) = Some "DatabaseMissingData" /\
  run (fun _ => Some Sample.http_error)
      (on_command_error Sample.bot_ready Sample.ctx_member Sample.database_missing)
  = (Raised Sample.http_error,
     [CtxSend "Critical database error: guild 7 has no row"]) /\
  filter is_log_event
    (trace_of (fun _ => Some Sample.http_error)
       (on_command_error Sample.bot_ready Sample.ctx_member Sample.database_missing))
  = [].
Proof. repeat split. Qed.

Example database_error_full_run :
  run Sample.env_ok
    (on_command_error Sample.bot_ready Sample.ctx_member Sample.database_missing)
  = (Returned tt,
     [ CtxSend "Critical database error: guild 7 has no row";
       LoggerCritical
         (LogText ("Ignoring <class 'discord.ext.commands.errors.DatabaseMissingData'>"
                   ++ " exception in command 'license':guild 7 has no row"));
       LoggerCritical
         (LogLines ["Traceback (most recent call last):";
                    "DatabaseMissingData: guild 7 has no row"]);
       summary_delivery 555%Z Sample.ctx_member Sample.database_missing;
       traceback_delivery 555%Z Sample.database_missing ]).
Proof. reflexivity. Qed.

(** ** The fallback branch *)

Lemma unknown_message_content (ctx : Context) (e : exn) :
  contains (cls_name e) (unknown_message ctx e) = true /\
  contains (command_str ctx) (unknown_message ctx e) = true /\
  contains (exn_str e) (unknown_message ctx e) = true.
Proof.
  unfold unknown_message. repeat split.
  - apply contains_inside.
  - do 3 apply contains_later. apply contains_here.
  - do 6 apply contains_later. apply contains_itself.
Qed.

(** C4: for an error that is an instance of none of the classes the
    handler tests, [log_traceback] is called first, so the two critical
    log entries open the trace in every environment (the branch always
    leaves a record).  The reply follows as soon as [log_traceback] has
    returned; the only reply this branch can send is
    "Ignoring exception **T** that happened while processing command
    **C**:", a line feed and the error's text, with T the name of the
    error's class and C the command. *)
Theorem unknown_error_is_logged_and_reported bot ctx env error :
  hasattr_on_error ctx = false ->
  first_match (getattr_original error) = None ->
  let e := getattr_original error in
  let reply := CtxSend (unknown_message ctx e) in
  unknown_message ctx e
  = "Ignoring exception **" ++ cls_name e ++
    "** that happened while processing command **" ++ command_str ctx ++
    "**:" ++ String (ascii_of_nat 10) "" ++ exn_str e /\
  (contains (cls_name e) (unknown_message ctx e) = true /\
   contains (command_str ctx) (unknown_message ctx e) = true) /\
  (exists rest,
     trace_of env (on_command_error bot ctx error)
     = (critical_entries ctx e ++ rest)%list) /\
  trace_of env (on_command_error bot ctx error)
  = (trace_of env (log_traceback bot ctx e) ++
     match outcome_of env (log_traceback bot ctx e) with
     | Returned _ => [reply]
     | Raised _ => []
     end)%list /\
  (forall content,
     In (CtxSend content) (trace_of env (on_command_error bot ctx error)) ->
     content = unknown_message ctx e).
Proof.
  intros Hon H e reply.
  pose proof (unknown_branch_run bot ctx env error Hon H) as Hrun.
  cbv zeta in Hrun. fold e in Hrun.
  destruct (log_traceback_entries_first bot ctx e env []) as (rest & Htr & Hrest).
  cbn [app] in Htr.
  assert (Hshape :
    trace_of env (on_command_error bot ctx error)
    = (trace_of env (log_traceback bot ctx e) ++
       match outcome_of env (log_traceback bot ctx e) with
       | Returned _ => [reply]
       | Raised _ => []
       end)%list).
  { unfold trace_of, outcome_of. rewrite Hrun.
    destruct (run env (log_traceback bot ctx e)) as [[[]|z] tr]; cbn [fst snd].
    - reflexivity.
    - now rewrite app_nil_r. }
  split; [reflexivity|]. split.
  { destruct (unknown_message_content ctx e) as (H1 & H2 & _). now split. }
  split; [|split; [exact Hshape|]].
  - rewrite Hshape. unfold trace_of at 1. unfold run. rewrite Htr.
    rewrite <- app_assoc. now eexists.
  - intros content Hin. rewrite Hshape in Hin.
    unfold trace_of at 1 in Hin. unfold run in Hin. rewrite Htr in Hin.
    apply in_app_or in Hin as [Hin|Hin].
    + apply in_app_or in Hin as [Hin|Hin].
      * unfold critical_entries in Hin. cbn [In] in Hin.
        destruct Hin as [Hin|[Hin|[]]]; discriminate Hin.
      * assert (Hf : In (CtxSend content) (filter is_ctx_send rest))
          by (apply filter_In; now split).
        rewrite Hrest in Hf. destruct Hf.
    + destruct (outcome_of env (log_traceback bot ctx e)); cbn [In] in Hin.
      * destruct Hin as [Hin|[]]. unfold reply in Hin. congruence.
      * destruct Hin.
Qed.

Lemma unknown_error_is_logged_and_reported_witness :
  trace_of Sample.env_ok
    (on_command_error Sample.bot_no_channel Sample.ctx_member
                      (Sample.invoke_error Sample.value_error))
  = (critical_entries Sample.ctx_member Sample.value_error ++
     [CtxSend ("Ignoring exception **ValueError** that happened while processing"
               ++ " command **license**:" ++ LF ++ "invalid literal")])%list.
Proof.
  pose proof (unknown_error_is_logged_and_reported
                Sample.bot_no_channel Sample.ctx_member Sample.env_ok
                (Sample.invoke_error Sample.value_error) eq_refl eq_refl)
    as (_ & _ & _ & Hshape & _).
  exact Hshape.
Defined.

(** ** CommandOnCooldown *)

Lemma is_developer_spec (bot : Bot) (ctx : Context) :
  is_developer bot ctx = true <-> In (author_id ctx) (map snd (get_developers bot)).
Proof.
  unfold is_developer. rewrite existsb_exists. split.
  - intros (id & Hin & Heq). apply Z.eqb_eq in Heq. now subst id.
  - intros Hin. exists (author_id ctx). split; [exact Hin|apply Z.eqb_refl].
Qed.

Lemma ceil_is_least_integer_above (q : Q) :
  (q <= inject_Z (Qceiling q))%Q /\ (inject_Z (Qceiling q - 1) < q)%Q.
Proof. split; [apply Qle_ceiling|apply Qceiling_lt]. Qed.

(** C3: for a CommandOnCooldown error the author's id is looked up
    among the values of the developer registry.  For a developer the
    first call is the re-invocation and the cooldown sentence is not
    produced: if the re-invocation returns, nothing else happens; if it
    raises an error (an instance of Exception, the class the except
    clause names), the one further call is a reply carrying that error's
    text.  For anyone else the one call is the reply "This command is on
    cooldown, please retry in Ns." with N the ceiling of [retry_after],
    and the command is not re-invoked. *)
Theorem cooldown_reinvoke_or_message bot ctx env error :
  hasattr_on_error ctx = false ->
  first_match (getattr_original error) = Some "CommandOnCooldown" ->
  let e := getattr_original error in
  let n := Qceiling (retry_after e) in
  let cooldown :=
    CtxSend ("This command is on cooldown, please retry in " ++ str_of_Z n ++ "s.") in
  (is_developer bot ctx = true <-> In (author_id ctx) (map snd (get_developers bot))) /\
  ((retry_after e <= inject_Z n)%Q /\ (inject_Z (n - 1) < retry_after e)%Q) /\
  run env (on_command_error bot ctx error)
  = if is_developer bot ctx then
      match env [CtxReinvoke] with
      | None => (Returned tt, [CtxReinvoke])
      | Some x =>
          if isinstance x "Exception" then
            (match env [CtxReinvoke; CtxSend (exn_str x)] with
             | None => Returned tt
             | Some y => Raised y
             end, [CtxReinvoke; CtxSend (exn_str x)])
          else (Raised x, [CtxReinvoke])
      end
    else
      (match env [cooldown] with None => Returned tt | Some y => Raised y end,
       [cooldown]).
Proof.
  intros Hon H e n cooldown.
  split; [apply is_developer_spec|]. split; [apply ceil_is_least_integer_above|].
  rewrite (branch_command_on_cooldown bot ctx error Hon H). fold e.
  destruct (is_developer bot ctx).
  - unfold run, try_except, ctx_reinvoke, ctx_send, await. cbn [app].
    destruct (env [CtxReinvoke]) as [x|]; [|reflexivity].
    destruct (isinstance x "Exception"); [|reflexivity].
    cbn [app]. now destruct (env _).
  - unfold ctx_send. rewrite run_await. reflexivity.
Qed.

Lemma cooldown_reinvoke_or_message_witness :
  run Sample.env_reinvoke_raises
    (on_command_error Sample.bot_ready Sample.ctx_developer Sample.on_cooldown)
  = (Returned tt, [CtxReinvoke; CtxSend "invalid literal"]).
Proof.
  pose proof (cooldown_reinvoke_or_message Sample.bot_ready Sample.ctx_developer
                Sample.env_reinvoke_raises Sample.on_cooldown eq_refl eq_refl)
    as (_ & _ & Hrun).
  exact Hrun.
Defined.

Example cooldown_for_a_member :
  run Sample.env_ok
    (on_command_error Sample.bot_ready Sample.ctx_member Sample.on_cooldown)
  = (Returned tt, [CtxSend "This command is on cooldown, please retry in 5s."]).
Proof. reflexivity. Qed.

Example cooldown_for_a_developer :
  run Sample.env_ok
    (on_command_error Sample.bot_ready Sample.ctx_developer Sample.on_cooldown)
  = (Returned tt, [CtxReinvoke]).
Proof. reflexivity. Qed.

(** ** Missing permissions *)

(** C1 (as amended): each permission name is normalised by replacing
    every underscore with a space, then every occurrence of "guild"
    with "server", then title-casing; the normalised name holds no
    underscore and is in title case.  The names are joined in input
    order: one name gives the name itself, two names give
    "A and B", and more than two give the names but the last joined
    with the separator "**, **" (a comma and a space between bold
    markers), followed by ", and " and the last name. *)
Theorem format_missing_pattern :
  (forall p,
     normalize_perm p = title (replace "guild" "server" (replace "_" " " p)) /\
     replace "_" " " p = map_chars underscore_to_space p /\
     has_char "_" (normalize_perm p) = false /\
     titlecased_from false (normalize_perm p) = true) /\
  (forall p, format_missing [p] = normalize_perm p) /\
  (forall p q,
     format_missing [p; q] = normalize_perm p ++ " and " ++ normalize_perm q) /\
  (forall a b rest lst,
     format_missing (a :: b :: rest ++ [lst])%list
     = String.concat "**, **" (map normalize_perm (a :: b :: rest))
       ++ ", and " ++ normalize_perm lst).
Proof.
  split; [|split; [|split]].
  - intros p. split; [reflexivity|]. split; [apply replace_underscore_chars|].
    split; [apply normalize_perm_no_underscore|apply normalize_perm_titlecased].
  - apply format_missing_single.
  - apply format_missing_pair.
  - apply format_missing_many.
Qed.

(** C1, the claim as worded fails for more than two names: the items
    but the last are not joined by a plain comma and space. *)
Lemma format_missing_not_plain_commas :
  format_missing ["manage_guild"; "kick_members"; "ban_members"]
  = "Manage Server**, **Kick Members, and Ban Members" /\
  spec_join_names (map normalize_perm ["manage_guild"; "kick_members"; "ban_members"])
  = "Manage Server, Kick Members, and Ban Members" /\
  format_missing ["manage_guild"; "kick_members"; "ban_members"]
  <> spec_join_names (map normalize_perm ["manage_guild"; "kick_members"; "ban_members"]).
Proof. repeat split. discriminate. Qed.

Lemma spec_join_names_agrees_up_to_two (p q : string) :
  format_missing [] = spec_join_names [] /\
  format_missing [p] = spec_join_names (map normalize_perm [p]) /\
  format_missing [p; q] = spec_join_names (map normalize_perm [p; q]).
Proof. repeat split. Qed.

Example bot_missing_permissions_reply :
  trace_of Sample.env_ok
    (on_command_error Sample.bot_ready Sample.ctx_member
       (mk_exn "BotMissingPermissions" Sample.commands_errors
               ["CheckFailure"; "CommandError"; "DiscordException"; "Exception"]
               "Bot requires Manage Roles permission(s) to run this command."
               ["manage_roles"; "manage_guild"; "kick_members"] 0%Q 0%Z "" [] None))
  = [CtxSend ("I need the **Manage Roles**, **Manage Server, and Kick Members**"
              ++ " permission(s) to run this command.")].
Proof. reflexivity. Qed.

Example missing_permissions_reply :
  trace_of Sample.env_ok
    (on_command_error Sample.bot_ready Sample.ctx_member
       (mk_exn "MissingPermissions" Sample.commands_errors
               ["CheckFailure"; "CommandError"; "DiscordException"; "Exception"]
               "You are missing Administrator permission(s) to run this command."
               ["administrator"] 0%Q 0%Z "" [] None))
  = [CtxSend "You need the **Administrator** permission(s) to use this command."].
Proof. reflexivity. Qed.

(** * Further properties of the handler *)

(** ** How the invariants compose *)

Section Composition.

Context {A B : Type}.

Lemma only_ret (P : Event -> bool) (a : A) : only P (ret a).
Proof. intros env tr H. exact H. Qed.

Lemma only_bind (P : Event -> bool) (m : M A) (k : A -> M B) :
  only P m -> (forall a, only P (k a)) -> only P (bind m k).
Proof.
  intros Hm Hk env tr H. specialize (Hm env tr H). unfold bind.
  destruct (m env tr) as [[a|e] tr']; cbn [snd] in *; [now apply Hk|exact Hm].
Qed.

Lemma only_try_except (P : Event -> bool) (body : M A) cls (handler : exn -> M A) :
  only P body -> (forall e, only P (handler e)) -> only P (try_except body cls handler).
Proof.
  intros Hm Hk env tr H. specialize (Hm env tr H). unfold try_except.
  destruct (body env tr) as [[a|e] tr']; cbn [snd] in *; [exact Hm|].
  destruct (isinstance e cls); [now apply Hk|exact Hm].
Qed.

Lemma only_if (P : Event -> bool) (b : bool) (m1 m2 : M A) :
  only P m1 -> only P m2 -> only P (if b then m1 else m2).
Proof. now destruct b. Qed.

Lemma replies_bind (n1 n2 : nat) (m : M A) (k : A -> M B) :
  replies_at_most n1 m -> (forall a, replies_at_most n2 (k a)) ->
  replies_at_most (n1 + n2) (bind m k).
Proof.
  intros Hm Hk env tr. specialize (Hm env tr). unfold bind.
  destruct (m env tr) as [[a|e] tr']; cbn [snd] in *; [|lia].
  specialize (Hk a env tr'). lia.
Qed.

Lemma replies_try_except (n1 n2 : nat) (body : M A) cls (handler : exn -> M A) :
  replies_at_most n1 body -> (forall e, replies_at_most n2 (handler e)) ->
  replies_at_most (n1 + n2) (try_except body cls handler).
Proof.
  intros Hm Hk env tr. specialize (Hm env tr). unfold try_except.
  destruct (body env tr) as [[a|e] tr']; cbn [snd] in *; [lia|].
  destruct (isinstance e cls); [|cbn [snd]; lia].
  specialize (Hk e env tr'). lia.
Qed.

Lemma replies_weaken (n n' : nat) (m : M A) :
  n <= n' -> replies_at_most n m -> replies_at_most n' m.
Proof. intros Hle Hm env tr. specialize (Hm env tr). lia. Qed.

Lemma replies_ret (a : A) : replies_at_most 0 (ret a).
Proof. intros env tr. unfold ret. cbn [snd]. lia. Qed.

Lemma raises_ret (a : A) : raises_from_last_call (ret a).
Proof. intros env tr x H. discriminate H. Qed.

Lemma raises_bind (m : M A) (k : A -> M B) :
  raises_from_last_call m -> (forall a, raises_from_last_call (k a)) ->
  raises_from_last_call (bind m k).
Proof.
  intros Hm Hk env tr x. specialize (Hm env tr). unfold bind.
  destruct (m env tr) as [[a|e] tr']; cbn [fst snd] in *.
  - apply Hk.
  - intros [= ->]. now apply Hm.
Qed.

Lemma raises_try_except (body : M A) cls (handler : exn -> M A) :
  raises_from_last_call body -> (forall e, raises_from_last_call (handler e)) ->
  raises_from_last_call (try_except body cls handler).
Proof.
  intros Hm Hk env tr x. specialize (Hm env tr). unfold try_except.
  destruct (body env tr) as [[a|e] tr']; cbn [fst snd] in *; [discriminate|].
  destruct (isinstance e cls); [apply Hk|].
  cbn [fst snd]. intros [= ->]. now apply Hm.
Qed.

Lemma acts_grows (m : M A) : acts m -> grows m.
Proof. intros H env tr. specialize (H env tr). lia. Qed.

Lemma grows_ret (a : A) : grows (ret a).
Proof. intros env tr. unfold ret. cbn [snd]. lia. Qed.

Lemma grows_bind (m : M A) (k : A -> M B) :
  grows m -> (forall a, grows (k a)) -> grows (bind m k).
Proof.
  intros Hm Hk env tr. specialize (Hm env tr). unfold bind.
  destruct (m env tr) as [[a|e] tr']; cbn [snd] in *; [|exact Hm].
  specialize (Hk a env tr'). lia.
Qed.

Lemma acts_bind (m : M A) (k : A -> M B) :
  acts m -> (forall a, grows (k a)) -> acts (bind m k).
Proof.
  intros Hm Hk env tr. specialize (Hm env tr). unfold bind.
  destruct (m env tr) as [[a|e] tr']; cbn [snd] in *; [|exact Hm].
  specialize (Hk a env tr'). lia.
Qed.

Lemma acts_bind_r (m : M A) (k : A -> M B) :
  grows m -> (forall a, acts (k a)) ->
  (forall env tr, exists a, fst (m env tr) = Returned a) ->
  acts (bind m k).
Proof.
  intros Hm Hk Hret env tr. specialize (Hm env tr). unfold bind.
  destruct (Hret env tr) as [a' Ha].
  destruct (m env tr) as [[a|e] tr']; cbn [fst snd] in *; [|discriminate].
  specialize (Hk a env tr'). lia.
Qed.

Lemma acts_try_except (body : M A) cls (handler : exn -> M A) :
  acts body -> (forall e, grows (handler e)) -> acts (try_except body cls handler).
Proof.
  intros Hm Hk env tr. specialize (Hm env tr). unfold try_except.
  destruct (body env tr) as [[a|e] tr']; cbn [snd] in *; [exact Hm|].
  destruct (isinstance e cls); [|exact Hm].
  specialize (Hk e env tr'). lia.
Qed.

End Composition.

Lemma only_await (P : Event -> bool) (ev : Event) :
  P ev = true -> only P (await ev).
Proof.
  intros Hev env tr H. unfold await.
  assert (forallb P (tr ++ [ev])%list = true)
    by (rewrite forallb_app, H; cbn; now rewrite Hev).
  now destruct (env (tr ++ [ev])%list).
Qed.

Lemma only_logger_critical (P : Event -> bool) (arg : LogArg) :
  P (LoggerCritical arg) = true -> only P (logger_critical arg).
Proof.
  intros Hev env tr H. unfold logger_critical. cbn [snd].
  rewrite forallb_app, H. cbn. now rewrite Hev.
Qed.

Lemma count_replies_app (tr1 tr2 : Trace) :
  count_replies (tr1 ++ tr2)%list = count_replies tr1 + count_replies tr2.
Proof. unfold count_replies. now rewrite filter_app, length_app. Qed.

Lemma replies_await_send (content : string) : replies_at_most 1 (ctx_send content).
Proof.
  intros env tr. unfold ctx_send, await.
  assert (count_replies (tr ++ [CtxSend content])%list = count_replies tr + 1)
    by now rewrite count_replies_app.
  destruct (env (tr ++ [CtxSend content])%list); cbn [snd]; lia.
Qed.

Lemma replies_await_other (ev : Event) :
  is_ctx_send ev = false -> replies_at_most 0 (await ev).
Proof.
  intros Hev env tr. unfold await.
  assert (count_replies (tr ++ [ev])%list = count_replies tr).
  { rewrite count_replies_app. unfold count_replies. cbn. rewrite Hev. cbn. lia. }
  destruct (env (tr ++ [ev])%list); cbn [snd]; lia.
Qed.

Lemma raises_await (ev : Event) : raises_from_last_call (await ev).
Proof.
  intros env tr x. unfold await.
  destruct (env (tr ++ [ev])%list) as [e|] eqn:E; cbn [fst snd]; [|discriminate].
  now intros [= ->].
Qed.

Lemma raises_logger_critical (arg : LogArg) :
  raises_from_last_call (logger_critical arg).
Proof. intros env tr x H. discriminate H. Qed.

Lemma acts_await (ev : Event) : acts (await ev).
Proof.
  intros env tr. unfold await.
  destruct (env (tr ++ [ev])%list); cbn [snd]; rewrite length_app; cbn; lia.
Qed.

Lemma acts_logger_critical (arg : LogArg) : acts (logger_critical arg).
Proof. intros env tr. cbn. rewrite length_app. cbn. lia. Qed.

(** ** The invariants on [log_traceback] and on the handler *)

Create HintDb handler.

#[local] Hint Resolve only_ret only_bind only_try_except only_if only_await
  only_logger_critical raises_ret raises_bind raises_try_except raises_await
  raises_logger_critical grows_ret grows_bind acts_grows acts_await
  acts_logger_critical acts_bind acts_try_except replies_ret : handler.

Ltac split_tests :=
  repeat match goal with
  | |- context [if ?b then _ else _] => destruct b
  end.

Lemma only_log_traceback (P : Event -> bool) bot ctx error :
  (forall arg, P (LoggerCritical arg) = true) ->
  (forall ch embed, P (ChannelSend ch embed) = true) ->
  only P (log_traceback bot ctx error).
Proof.
  intros Hlog Hsend. unfold log_traceback, channel_send. cbv zeta.
  destruct (is_ready bot);
    [destruct (get_channel bot (get_developer_log_channel_id bot))|];
    auto 8 with handler.
Qed.

Lemma raises_log_traceback bot ctx error :
  raises_from_last_call (log_traceback bot ctx error).
Proof.
  unfold log_traceback, channel_send. cbv zeta.
  destruct (is_ready bot);
    [destruct (get_channel bot (get_developer_log_channel_id bot))|];
    auto 8 with handler.
Qed.

Lemma acts_log_traceback bot ctx error : acts (log_traceback bot ctx error).
Proof.
  unfold log_traceback, channel_send. cbv zeta.
  apply acts_bind; [apply acts_logger_critical|intros _].
  destruct (is_ready bot);
    [destruct (get_channel bot (get_developer_log_channel_id bot))|];
    auto 8 with handler.
Qed.

Lemma replies_log_traceback bot ctx error :
  replies_at_most 0 (log_traceback bot ctx error).
Proof.
  intros env tr. rewrite log_traceback_from. cbv zeta.
  destruct (resolved_log_channel bot) as [ch|]; [destruct (env _)|];
    cbn [snd]; rewrite !count_replies_app;
    unfold count_replies, critical_entries, summary_delivery, traceback_delivery;
    cbn [filter is_ctx_send List.length]; lia.
Qed.

Lemma raises_on_command_error bot ctx error :
  raises_from_last_call (on_command_error bot ctx error).
Proof.
  unfold on_command_error, ctx_send, author_send, ctx_reinvoke. cbv zeta.
  split_tests; auto 6 using raises_log_traceback with handler.
Qed.

Lemma replies_on_command_error bot ctx error :
  replies_at_most 1 (on_command_error bot ctx error).
Proof.
  unfold on_command_error. cbv zeta.
  split_tests;
    try apply replies_await_send;
    try (apply (replies_weaken 0 1); [lia|apply replies_ret]).
  - apply (replies_try_except 0 1);
      [now apply replies_await_other|intros; apply replies_await_send].
  - apply (replies_weaken 0 1); [lia|].
    apply (replies_try_except 0 0);
      [now apply replies_await_other|intros; apply replies_ret].
  - apply (replies_bind 1 0);
      [apply replies_await_send|intros; apply replies_log_traceback].
  - apply (replies_bind 0 1);
      [apply replies_log_traceback|intros; apply replies_await_send].
Qed.

Lemma acts_on_command_error bot ctx error :
  hasattr_on_error ctx = false -> acts (on_command_error bot ctx error).
Proof.
  intros Hon. unfold on_command_error, ctx_send, author_send, ctx_reinvoke.
  rewrite Hon. cbv zeta.
  split_tests; auto 6 using acts_log_traceback with handler.
Qed.

(** ** Case analysis along the [isinstance] chain *)

Lemma branch_disabled_command bot ctx error :
  hasattr_on_error ctx = false ->
  first_match (getattr_original error) = Some "DisabledCommand" ->
  on_command_error bot ctx error = ctx_send "This command has been disabled.".
Proof. intros Hon H. take_branch Hon H. reflexivity. Qed.

Lemma branch_user_input_error bot ctx error :
  hasattr_on_error ctx = false ->
  first_match (getattr_original error) = Some "UserInputError" ->
  on_command_error bot ctx error
  = ctx_send ("Invalid command input: " ++ exn_str (getattr_original error)).
Proof. intros Hon H. take_branch Hon H. reflexivity. Qed.

Lemma branch_check_failure bot ctx error :
  hasattr_on_error ctx = false ->
  first_match (getattr_original error) = Some "CheckFailure" ->
  on_command_error bot ctx error
  = ctx_send "You do not have permission to use this command.".
Proof. intros Hon H. take_branch Hon H. reflexivity. Qed.

Lemma branch_default_guild_role_not_set bot ctx error :
  hasattr_on_error ctx = false ->
  first_match (getattr_original error) = Some "DefaultGuildRoleNotSet" ->
  on_command_error bot ctx error
  = ctx_send ("Trying to use default guild license but: "
              ++ message (getattr_original error)).
Proof. intros Hon H. take_branch Hon H. reflexivity. Qed.

Lemma first_match_handled (e : exn) (c : string) :
  first_match e = Some c -> In c handled_classes /\ isinstance e c = true.
Proof. intros H. apply find_some in H. exact H. Qed.

(** The handler is one of fourteen computations, chosen by the local
    handler test and by the first class of the chain that matches. *)
Lemma on_command_error_cases bot ctx error (P : M unit -> Prop) :
  let e := getattr_original error in
  (hasattr_on_error ctx = true -> P (ret tt)) ->
  (first_match e = Some "CommandNotFound" -> P (ctx_send "Command not found.")) ->
  (first_match e = Some "BotMissingPermissions" ->
   P (ctx_send ("I need the **" ++ format_missing (missing_perms e)
                ++ "** permission(s) to run this command."))) ->
  (first_match e = Some "DisabledCommand" ->
   P (ctx_send "This command has been disabled.")) ->
  (first_match e = Some "CommandOnCooldown" ->
   P (if is_developer bot ctx
      then try_except ctx_reinvoke "Exception" (fun x => ctx_send (exn_str x))
      else ctx_send (cooldown_message e))) ->
  (first_match e = Some "MissingPermissions" ->
   P (ctx_send ("You need the **" ++ format_missing (missing_perms e)
                ++ "** permission(s) to use this command."))) ->
  (first_match e = Some "UserInputError" ->
   P (ctx_send ("Invalid command input: " ++ exn_str e))) ->
  (first_match e = Some "NoPrivateMessage" ->
   P (try_except (author_send "This command cannot be used in direct messages.")
                 "Forbidden" (fun _ => ret tt))) ->
  (first_match e = Some "CheckFailure" ->
   P (ctx_send "You do not have permission to use this command.")) ->
  (first_match e = Some "Forbidden" ->
   P (if (code e =? 50013)%Z then
        ctx_send (exn_str e ++ "." ++ LF ++
                  "Check role hierarchy - I can only manage roles below me.")
      else if (code e =? 50007)%Z then
        ctx_send (exn_str e ++ "." ++ LF ++ "Hint: Disabled DMs?")
      else ctx_send (exn_str e ++ "."))) ->
  (first_match e = Some "RoleNotFound" -> P (ctx_send (message e))) ->
  (first_match e = Some "DefaultGuildRoleNotSet" ->
   P (ctx_send ("Trying to use default guild license but: " ++ message e))) ->
  (first_match e = Some "DatabaseMissingData" ->
   P (ctx_send ("Critical database error: " ++ message e) ;;
      log_traceback bot ctx e)) ->
  (first_match e = None ->
   P (log_traceback bot ctx e ;; ctx_send (unknown_message ctx e))) ->
  P (on_command_error bot ctx error).
Proof.
  intros e H0 H1 H2 H3 H4 H5 H6 H7 H8 H9 H10 H11 H12 H13.
  destruct (hasattr_on_error ctx) eqn:Hon.
  - unfold on_command_error. rewrite Hon. now apply H0.
  - destruct (first_match e) as [c|] eqn:Hfm.
    + destruct (first_match_handled e c Hfm) as [Hin _].
      unfold handled_classes in Hin. cbn [In] in Hin.
      repeat (destruct Hin as [<-|Hin];
              [first
                 [ rewrite (branch_command_not_found bot ctx error Hon Hfm)
                 | rewrite (branch_bot_missing_permissions bot ctx error Hon Hfm)
                 | rewrite (branch_disabled_command bot ctx error Hon Hfm)
                 | rewrite (branch_command_on_cooldown bot ctx error Hon Hfm)
                 | rewrite (branch_missing_permissions bot ctx error Hon Hfm)
                 | rewrite (branch_user_input_error bot ctx error Hon Hfm)
                 | rewrite (branch_no_private_message bot ctx error Hon Hfm)
                 | rewrite (branch_check_failure bot ctx error Hon Hfm)
                 | rewrite (branch_forbidden bot ctx error Hon Hfm)
                 | rewrite (branch_role_not_found bot ctx error Hon Hfm)
                 | rewrite (branch_default_guild_role_not_set bot ctx error Hon Hfm)
                 | rewrite (branch_database_missing_data bot ctx error Hon Hfm) ];
               auto|]).
      destruct Hin.
    + rewrite (branch_unknown bot ctx error Hon Hfm). auto.
Qed.

(** ** What the handler does for every error *)

(** X1: the handler raises nothing of its own.  Whenever
    [on_command_error] ends by raising, the exception is the one raised
    by the last call of the trace (a send, a direct message, the
    re-invocation or a delivery to the log channel), for every error,
    context, bot state and environment. *)
Theorem handler_raises_what_its_last_call_raised bot ctx error env x :
  outcome_of env (on_command_error bot ctx error) = Raised x ->
  env (trace_of env (on_command_error bot ctx error)) = Some x.
Proof. apply raises_on_command_error. Qed.

Lemma handler_raises_what_its_last_call_raised_witness :
  Sample.env_channel_down
    (trace_of Sample.env_channel_down
       (on_command_error Sample.bot_ready Sample.ctx_member Sample.database_missing))
  = Some Sample.http_error.
Proof.
  apply (handler_raises_what_its_last_call_raised
           Sample.bot_ready Sample.ctx_member Sample.database_missing
           Sample.env_channel_down Sample.http_error).
  reflexivity.
Defined.

(** X2: in an environment where no call raises, the handler returns
    normally, whatever the error. *)
Theorem handler_returns_when_calls_return bot ctx error env :
  (forall tr, env tr = None) ->
  outcome_of env (on_command_error bot ctx error) = Returned tt.
Proof.
  intros Hquiet.
  destruct (outcome_of env (on_command_error bot ctx error)) as [[]|x] eqn:E;
    [reflexivity|].
  apply raises_on_command_error in E. rewrite Hquiet in E. discriminate E.
Qed.

Lemma handler_returns_when_calls_return_witness :
  (forall tr, Sample.env_ok tr = None) /\
  outcome_of Sample.env_ok
    (on_command_error Sample.bot_ready Sample.ctx_member
                      (Sample.invoke_error Sample.value_error))
  = Returned tt.
Proof.
  split; [reflexivity|].
  apply (handler_returns_when_calls_return Sample.bot_ready Sample.ctx_member
           (Sample.invoke_error Sample.value_error) Sample.env_ok).
  reflexivity.
Defined.

(** X3: the handler sends at most one reply on the context, for every
    error, context, bot state and environment: no error falls through
    into a second branch. *)
Theorem handler_replies_at_most_once bot ctx error env :
  count_replies (trace_of env (on_command_error bot ctx error)) <= 1.
Proof. apply (replies_on_command_error bot ctx error env []). Qed.

(** X4: unless the command has its own error handler, the handler makes
    at least one call for every error: no error is dropped without a
    trace. *)
Theorem handler_always_acts bot ctx error env :
  hasattr_on_error ctx = false ->
  trace_of env (on_command_error bot ctx error) <> [].
Proof.
  intros Hon Hnil.
  pose proof (acts_on_command_error bot ctx error Hon env []) as Hlen.
  unfold trace_of, run in Hnil. rewrite Hnil in Hlen. cbn in Hlen. lia.
Qed.

Lemma handler_always_acts_witness :
  hasattr_on_error Sample.ctx_member = false /\
  trace_of Sample.env_channel_down
    (on_command_error Sample.bot_ready Sample.ctx_member Sample.value_error) <> [].
Proof.
  split; [reflexivity|].
  apply (handler_always_acts Sample.bot_ready Sample.ctx_member Sample.value_error
           Sample.env_channel_down).
  reflexivity.
Defined.

(** ** Which calls belong to which branch *)

Lemma only_excludes (P : Event -> bool) (m : M unit) env ev :
  only P m -> P ev = false -> ~ In ev (trace_of env m).
Proof.
  intros Hm Hev Hin. specialize (Hm env [] eq_refl).
  rewrite forallb_forall in Hm. specialize (Hm ev Hin). congruence.
Qed.

Lemma only_filter_empty (Q : Event -> bool) (m : M unit) env :
  only (fun ev => negb (Q ev)) m -> filter Q (trace_of env m) = [].
Proof.
  intros Hm. specialize (Hm env [] eq_refl). unfold trace_of, run.
  induction (snd (m env [])) as [|ev tr IH]; [reflexivity|].
  cbn [forallb filter] in *. apply andb_true_iff in Hm as [Hev Htr].
  apply negb_true_iff in Hev. rewrite Hev. now apply IH.
Qed.

(** X5: diagnostic logging is reserved to DatabaseMissingData errors and
    to the fallback.  For an error whose first matching class is any
    other one, the trace holds no critical log entry and no delivery to
    the log channel, whatever the bot state and the environment. *)
Theorem no_log_for_classified_errors bot ctx error env c :
  first_match (getattr_original error) = Some c ->
  c <> "DatabaseMissingData" ->
  filter is_log_event (trace_of env (on_command_error bot ctx error)) = [].
Proof.
  intros Hfm Hc.
  apply (on_command_error_cases bot ctx error
           (fun m => filter is_log_event (trace_of env m) = []));
    cbv zeta; intros Hcase;
    try (rewrite Hfm in Hcase; first [discriminate Hcase | congruence]);
    apply only_filter_empty;
    unfold ctx_send, author_send, ctx_reinvoke;
    split_tests; auto 6 with handler.
Qed.

Lemma no_log_for_classified_errors_witness :
  filter is_log_event
    (trace_of Sample.env_reinvoke_raises
       (on_command_error Sample.bot_ready Sample.ctx_developer Sample.on_cooldown))
  = [].
Proof.
  apply (no_log_for_classified_errors Sample.bot_ready Sample.ctx_developer
           Sample.on_cooldown Sample.env_reinvoke_raises "CommandOnCooldown");
    [reflexivity|discriminate].
Defined.

(** X6: the handler sends a direct message to the author only for a
    NoPrivateMessage error, and then only the fixed sentence. *)
Theorem direct_message_only_for_no_private_message bot ctx error env content :
  In (AuthorSend content) (trace_of env (on_command_error bot ctx error)) ->
  first_match (getattr_original error) = Some "NoPrivateMessage" /\
  content = "This command cannot be used in direct messages.".
Proof.
  apply (on_command_error_cases bot ctx error
           (fun m => In (AuthorSend content) (trace_of env m) -> _));
    cbv zeta; intros Hcase Hin.
  8: { split; [exact Hcase|].
       unfold trace_of, run, try_except, author_send, await, ret in Hin.
       cbn [app] in Hin.
       destruct (env _) as [x|]; [destruct (isinstance x "Forbidden")|];
         cbn [snd In] in Hin; destruct Hin as [[= <-]|[]]; reflexivity. }
  all: exfalso; revert Hin;
    apply (only_excludes (fun ev => negb (is_author_send ev))); [|reflexivity];
    unfold ctx_send, ctx_reinvoke;
    split_tests; auto 6 using only_log_traceback with handler.
Qed.

Lemma direct_message_only_for_no_private_message_witness :
  first_match (getattr_original Sample.no_private_message) = Some "NoPrivateMessage".
Proof.
  apply (direct_message_only_for_no_private_message
           Sample.bot_ready Sample.ctx_member Sample.no_private_message
           Sample.env_dm_http_error
           "This command cannot be used in direct messages.").
  left. reflexivity.
Defined.

(** X7: the command is re-invoked only for a CommandOnCooldown error
    whose author is in the developer registry. *)
Theorem reinvoke_only_for_developer_on_cooldown bot ctx error env :
  In CtxReinvoke (trace_of env (on_command_error bot ctx error)) ->
  first_match (getattr_original error) = Some "CommandOnCooldown" /\
  is_developer bot ctx = true.
Proof.
  apply (on_command_error_cases bot ctx error
           (fun m => In CtxReinvoke (trace_of env m) -> _));
    cbv zeta; intros Hcase Hin.
  5: { split; [exact Hcase|].
       destruct (is_developer bot ctx); [reflexivity|].
       exfalso; revert Hin.
       apply (only_excludes (fun ev => negb (is_reinvoke ev))); [|reflexivity].
       unfold ctx_send. auto with handler. }
  all: exfalso; revert Hin;
    apply (only_excludes (fun ev => negb (is_reinvoke ev))); [|reflexivity];
    unfold ctx_send, author_send;
    split_tests; auto 6 using only_log_traceback with handler.
Qed.

Lemma reinvoke_only_for_developer_on_cooldown_witness :
  first_match (getattr_original Sample.on_cooldown) = Some "CommandOnCooldown" /\
  is_developer Sample.bot_ready Sample.ctx_developer = true.
Proof.
  apply (reinvoke_only_for_developer_on_cooldown
           Sample.bot_ready Sample.ctx_developer Sample.on_cooldown Sample.env_ok).
  left. reflexivity.
Defined.

(** ** Replies of the remaining branches *)

Lemma trace_of_ctx_send env content :
  trace_of env (ctx_send content) = [CtxSend content].
Proof. unfold trace_of, ctx_send. now rewrite run_await. Qed.

(** X8: CommandNotFound, DisabledCommand and CheckFailure errors each
    get one fixed reply and nothing else is called; the text does not
    depend on the error object, the command or the bot. *)
Theorem fixed_replies bot ctx env e_unknown_command e_disabled e_check :
  hasattr_on_error ctx = false ->
  first_match (getattr_original e_unknown_command) = Some "CommandNotFound" ->
  first_match (getattr_original e_disabled) = Some "DisabledCommand" ->
  first_match (getattr_original e_check) = Some "CheckFailure" ->
  trace_of env (on_command_error bot ctx e_unknown_command)
  = [CtxSend "Command not found."] /\
  trace_of env (on_command_error bot ctx e_disabled)
  = [CtxSend "This command has been disabled."] /\
  trace_of env (on_command_error bot ctx e_check)
  = [CtxSend "You do not have permission to use this command."].
Proof.
  intros Hon H1 H2 H3.
  rewrite (branch_command_not_found bot ctx _ Hon H1).
  rewrite (branch_disabled_command bot ctx _ Hon H2).
  rewrite (branch_check_failure bot ctx _ Hon H3).
  now rewrite !trace_of_ctx_send.
Qed.

Lemma fixed_replies_witness :
  trace_of Sample.env_ok
    (on_command_error Sample.bot_ready Sample.ctx_member
       (Sample.command_error "CommandNotFound" [] "Command licence is not found"))
  = [CtxSend "Command not found."].
Proof.
  pose proof (fixed_replies Sample.bot_ready Sample.ctx_member Sample.env_ok
                (Sample.command_error "CommandNotFound" [] "Command licence is not found")
                (Sample.command_error "DisabledCommand" [] "license command is disabled")
                (Sample.command_error "CheckFailure" [] "The check functions failed.")
                eq_refl eq_refl eq_refl eq_refl) as (H & _ & _).
  exact H.
Defined.

(** X9: a UserInputError gets the one reply "Invalid command input: "
    followed by the error's text, and a DefaultGuildRoleNotSet error
    the one reply "Trying to use default guild license but: " followed
    by the error's message; nothing else is called. *)
Theorem text_carrying_replies bot ctx env e_input e_role :
  hasattr_on_error ctx = false ->
  first_match (getattr_original e_input) = Some "UserInputError" ->
  first_match (getattr_original e_role) = Some "DefaultGuildRoleNotSet" ->
  trace_of env (on_command_error bot ctx e_input)
  = [CtxSend ("Invalid command input: " ++ exn_str (getattr_original e_input))] /\
  trace_of env (on_command_error bot ctx e_role)
  = [CtxSend ("Trying to use default guild license but: "
              ++ message (getattr_original e_role))].
Proof.
  intros Hon H1 H2.
  rewrite (branch_user_input_error bot ctx _ Hon H1).
  rewrite (branch_default_guild_role_not_set bot ctx _ Hon H2).
  now rewrite !trace_of_ctx_send.
Qed.

Lemma text_carrying_replies_witness :
  trace_of Sample.env_ok
    (on_command_error Sample.bot_ready Sample.ctx_member
       (Sample.command_error "MissingRequiredArgument" ["UserInputError"]
          "member is a required argument that is missing."))
  = [CtxSend "Invalid command input: member is a required argument that is missing."].
Proof.
  pose proof (text_carrying_replies Sample.bot_ready Sample.ctx_member Sample.env_ok
                (Sample.command_error "MissingRequiredArgument" ["UserInputError"]
                   "member is a required argument that is missing.")
                (Sample.with_message
                   (Sample.command_error "DefaultGuildRoleNotSet" [] "") "no default role")
                eq_refl eq_refl eq_refl) as (H & _).
  exact H.
Defined.

(** X10: a BotMissingPermissions error gets the one reply
    "I need the **L** permission(s) to run this command." and a
    MissingPermissions error the one reply
    "You need the **L** permission(s) to use this command.", with L the
    formatted list of the error's missing permissions. *)
Theorem permission_replies bot ctx env e_bot e_member :
  hasattr_on_error ctx = false ->
  first_match (getattr_original e_bot) = Some "BotMissingPermissions" ->
  first_match (getattr_original e_member) = Some "MissingPermissions" ->
  trace_of env (on_command_error bot ctx e_bot)
  = [CtxSend ("I need the **"
              ++ format_missing (missing_perms (getattr_original e_bot))
              ++ "** permission(s) to run this command.")] /\
  trace_of env (on_command_error bot ctx e_member)
  = [CtxSend ("You need the **"
              ++ format_missing (missing_perms (getattr_original e_member))
              ++ "** permission(s) to use this command.")].
Proof.
  intros Hon H1 H2.
  rewrite (branch_bot_missing_permissions bot ctx _ Hon H1).
  rewrite (branch_missing_permissions bot ctx _ Hon H2).
  now rewrite !trace_of_ctx_send.
Qed.

Lemma permission_replies_witness :
  trace_of Sample.env_ok
    (on_command_error Sample.bot_ready Sample.ctx_member
       (mk_exn "MissingPermissions" Sample.commands_errors
               ["CheckFailure"; "CommandError"; "Exception"] "missing"
               ["manage_guild"; "ban_members"] 0%Q 0%Z "" [] None))
  = [CtxSend "You need the **Manage Server and Ban Members** permission(s) to use this command."].
Proof.
  pose proof (permission_replies Sample.bot_ready Sample.ctx_member Sample.env_ok
                (mk_exn "BotMissingPermissions" Sample.commands_errors
                        ["CheckFailure"; "CommandError"; "Exception"] "missing"
                        ["manage_roles"] 0%Q 0%Z "" [] None)
                (mk_exn "MissingPermissions" Sample.commands_errors
                        ["CheckFailure"; "CommandError"; "Exception"] "missing"
                        ["manage_guild"; "ban_members"] 0%Q 0%Z "" [] None)
                eq_refl eq_refl eq_refl) as (_ & H).
  exact H.
Defined.

(** X11: the three classes tested before CheckFailure that discord.py
    derives from it keep their own handling.  For an error whose first
    matching class is BotMissingPermissions, MissingPermissions or
    NoPrivateMessage, whether or not it is also a CheckFailure, the
    generic reply "You do not have permission to use this command." is
    not sent. *)
Theorem generic_check_reply_not_for_specific_checks bot ctx error env c :
  first_match (getattr_original error) = Some c ->
  In c ["BotMissingPermissions"; "MissingPermissions"; "NoPrivateMessage"] ->
  ~ In (CtxSend "You do not have permission to use this command.")
       (trace_of env (on_command_error bot ctx error)).
Proof.
  intros Hfm Hc.
  destruct (hasattr_on_error ctx) eqn:Hon.
  { unfold on_command_error. rewrite Hon. intros []. }
  cbn [In] in Hc. destruct Hc as [<-|[<-|[<-|[]]]].
  - rewrite (branch_bot_missing_permissions bot ctx _ Hon Hfm), trace_of_ctx_send.
    cbn [In append]. intros [H|[]]. discriminate H.
  - rewrite (branch_missing_permissions bot ctx _ Hon Hfm), trace_of_ctx_send.
    cbn [In append]. intros [H|[]]. discriminate H.
  - rewrite (branch_no_private_message bot ctx _ Hon Hfm).
    apply (only_excludes (fun ev => negb (is_ctx_send ev))); [|reflexivity].
    unfold author_send. auto with handler.
Qed.

Lemma generic_check_reply_not_for_specific_checks_witness :
  isinstance Sample.no_private_message "CheckFailure" = true /\
  ~ In (CtxSend "You do not have permission to use this command.")
       (trace_of Sample.env_ok
          (on_command_error Sample.bot_ready Sample.ctx_member
                            Sample.no_private_message)).
Proof.
  split; [reflexivity|].
  apply (generic_check_reply_not_for_specific_checks
           Sample.bot_ready Sample.ctx_member Sample.no_private_message
           Sample.env_ok "NoPrivateMessage"); [reflexivity|].
  right. right. left. reflexivity.
Defined.

(** ** The formatted list of permissions *)

Lemma three_or_more (l : list string) :
  2 < List.length l ->
  exists a b rest lst, l = (a :: b :: rest ++ [lst])%list.
Proof.
  destruct l as [|a [|b l]]; cbn [List.length]; try lia. intros Hlen.
  destruct l as [|c l]; [cbn in Hlen; lia|].
  destruct (exists_last (l := c :: l)) as (rest & lst & E); [discriminate|].
  exists a, b, rest, lst. now rewrite E.
Qed.

Lemma contains_concat (sep x : string) (l : list string) :
  In x l -> contains x (String.concat sep l) = true.
Proof.
  induction l as [|y l IH]; [intros []|].
  intros Hin. destruct l as [|z l].
  - destruct Hin as [->|[]]. apply contains_itself.
  - change (String.concat sep (y :: z :: l))
      with (y ++ sep ++ String.concat sep (z :: l)).
    destruct Hin as [->|Hin]; [apply contains_here|].
    do 2 apply contains_later. now apply IH.
Qed.

Lemma has_char_concat (c : ascii) (sep : string) (l : list string) :
  has_char c sep = false ->
  (forall x, In x l -> has_char c x = false) ->
  has_char c (String.concat sep l) = false.
Proof.
  intros Hsep. induction l as [|y l IH]; intros Hl; [reflexivity|].
  destruct l as [|z l].
  - apply Hl. now left.
  - change (String.concat sep (y :: z :: l))
      with (y ++ sep ++ String.concat sep (z :: l)).
    rewrite !has_char_append, Hsep, (Hl y (or_introl eq_refl)).
    cbn [orb]. apply IH. intros x Hx. apply Hl. now right.
Qed.

(** X12: every missing permission is named in the formatted list: the
    normalised form of each input name occurs in the result, for a list
    of any length. *)
Theorem format_missing_names_every_permission (perms : list string) (p : string) :
  In p perms ->
  contains (normalize_perm p) (format_missing perms) = true.
Proof.
  intros Hin.
  destruct (Nat.ltb_spec 2 (List.length perms)) as [Hlong|Hshort].
  - destruct (three_or_more perms Hlong) as (a & b & rest & lst & ->).
    rewrite format_missing_many.
    change (a :: b :: rest ++ [lst])%list with ((a :: b :: rest) ++ [lst])%list in Hin.
    apply in_app_or in Hin as [Hin|[<-|[]]].
    + apply contains_in_left, contains_concat. now apply in_map.
    + do 2 apply contains_later. apply contains_itself.
  - unfold format_missing. cbv zeta. rewrite length_map.
    destruct (Nat.ltb_spec 2 (List.length perms)); [lia|].
    apply contains_concat. now apply in_map.
Qed.

Lemma format_missing_names_every_permission_witness :
  contains "Manage Server"
    (format_missing ["kick_members"; "manage_guild"; "ban_members"; "administrator"])
  = true.
Proof.
  apply (format_missing_names_every_permission
           ["kick_members"; "manage_guild"; "ban_members"; "administrator"]
           "manage_guild").
  right. left. reflexivity.
Defined.

(** X13: the formatted list holds no underscore, whatever the names and
    however many there are; an empty list gives the empty string. *)
Theorem format_missing_has_no_underscore (perms : list string) :
  has_char "_" (format_missing perms) = false /\ format_missing [] = "".
Proof.
  split; [|reflexivity].
  assert (Hall : forall x, In x (map normalize_perm perms) -> has_char "_" x = false).
  { intros x Hx. apply in_map_iff in Hx as (p & <- & _).
    apply normalize_perm_no_underscore. }
  destruct (Nat.ltb_spec 2 (List.length perms)) as [Hlong|Hshort].
  - destruct (three_or_more perms Hlong) as (a & b & rest & lst & E).
    rewrite E, format_missing_many, !has_char_append.
    rewrite has_char_concat; [|reflexivity|].
    + rewrite normalize_perm_no_underscore. reflexivity.
    + intros x Hx. apply Hall. rewrite E.
      change (a :: b :: rest ++ [lst])%list with ((a :: b :: rest) ++ [lst])%list.
      rewrite map_app. apply in_or_app. now left.
  - unfold format_missing. cbv zeta. rewrite length_map.
    destruct (Nat.ltb_spec 2 (List.length perms)); [lia|].
    now apply has_char_concat.
Qed.

(** ** Normalisation without the guild rename *)

Lemma to_lower_title_from (s : string) (prev : bool) :
  map_chars to_lower (title_from prev s) = map_chars to_lower s.
Proof.
  revert prev. induction s as [|c s IH]; intros prev; [reflexivity|].
  cbn [title_from map_chars]. rewrite IH. f_equal.
  destruct prev; destruct c as [[] [] [] [] [] [] [] []]; reflexivity.
Qed.

Lemma length_map_chars (f : ascii -> ascii) (s : string) :
  String.length (map_chars f s) = String.length s.
Proof. induction s as [|c s IH]; cbn [map_chars String.length]; congruence. Qed.

Lemma length_title_from (s : string) (prev : bool) :
  String.length (title_from prev s) = String.length s.
Proof.
  revert prev. induction s as [|c s IH]; intros prev; [reflexivity|].
  cbn [title_from String.length]. now rewrite IH.
Qed.

Lemma prefix_underscore_to_space (n s : string) :
  has_char "_" n = false -> has_char " " n = false ->
  prefix n (map_chars underscore_to_space s) = prefix n s.
Proof.
  revert s. induction n as [|a n IH]; intros s Hu Hs.
  - now rewrite !prefix_empty.
  - cbn [has_char] in Hu, Hs.
    apply orb_false_iff in Hu as [Hu Hu'], Hs as [Hs Hs'].
    destruct s as [|b s]; [reflexivity|].
    change (map_chars underscore_to_space (String b s))
      with (String (underscore_to_space b) (map_chars underscore_to_space s)).
    destruct (Ascii.eqb_spec b "_") as [Eb|Eb].
    + subst b. change (underscore_to_space "_") with " "%char.
      cbn [prefix].
      destruct (ascii_dec a " ") as [->|_];
        [now rewrite Ascii.eqb_refl in Hs|].
      destruct (ascii_dec a "_") as [->|_];
        [now rewrite Ascii.eqb_refl in Hu|reflexivity].
    + assert (Hb : underscore_to_space b = b).
      { unfold underscore_to_space.
        destruct (Ascii.eqb_spec b "_"); [contradiction|reflexivity]. }
      rewrite Hb. cbn [prefix].
      destruct (ascii_dec a b); [now apply IH|reflexivity].
Qed.

Lemma contains_underscore_to_space (n s : string) :
  has_char "_" n = false -> has_char " " n = false ->
  contains n (map_chars underscore_to_space s) = contains n s.
Proof.
  intros Hu Hs. induction s as [|b s IH].
  - cbn [map_chars contains]. reflexivity.
  - change (map_chars underscore_to_space (String b s))
      with (String (underscore_to_space b) (map_chars underscore_to_space s)).
    cbn [contains]. rewrite IH.
    change (String (underscore_to_space b) (map_chars underscore_to_space s))
      with (map_chars underscore_to_space (String b s)).
    now rewrite prefix_underscore_to_space.
Qed.

(** X14: for a permission name in which "guild" does not occur,
    normalisation keeps the length and every character up to letter
    case, except that underscores become spaces. *)
Theorem normalize_perm_without_guild (p : string) :
  contains "guild" p = false ->
  String.length (normalize_perm p) = String.length p /\
  map_chars to_lower (normalize_perm p)
  = map_chars to_lower (map_chars underscore_to_space p).
Proof.
  intros Hp. unfold normalize_perm, title.
  rewrite replace_underscore_chars.
  rewrite replace_no_occurrence
    by (rewrite contains_underscore_to_space; [exact Hp|reflexivity|reflexivity]).
  split.
  - now rewrite length_title_from, length_map_chars.
  - apply to_lower_title_from.
Qed.

Lemma normalize_perm_without_guild_witness :
  String.length (normalize_perm "MANAGE_roles") = 12.
Proof.
  pose proof (normalize_perm_without_guild "MANAGE_roles" eq_refl) as [H _].
  exact H.
Defined.

(** ** The cooldown message *)

Lemma str_of_Z_round_trip (n : Z) : Z_of_str (str_of_Z n) = Some n.
Proof.
  unfold Z_of_str, str_of_Z.
  rewrite NilZero.isi.
  - cbn [option_map]. now rewrite DecimalZ.of_to.
  - destruct n as [|p|p]; cbn; try discriminate.
    intros [= H]. now apply (DecimalPos.Unsigned.to_uint_nonnil p).
  - destruct n as [|p|p]; cbn; try discriminate.
    intros [= H]. now apply (DecimalPos.Unsigned.to_uint_nonnil p).
Qed.

Lemma append_cancel_l (a x y : string) : a ++ x = a ++ y -> x = y.
Proof.
  induction a as [|c a IH]; cbn [append]; [trivial|].
  intros [= H]. now apply IH.
Qed.

Lemma length_append (x y : string) :
  String.length (x ++ y) = String.length x + String.length y.
Proof.
  induction x as [|c x IH]; cbn [append String.length Nat.add]; congruence.
Qed.

Lemma append_cancel_r (a x y : string) : x ++ a = y ++ a -> x = y.
Proof.
  revert y. induction x as [|c x IH]; intros [|d y] H; cbn [append] in H.
  - reflexivity.
  - apply (f_equal String.length) in H. cbn [String.length] in H.
    rewrite length_append in H. lia.
  - apply (f_equal String.length) in H. cbn [String.length] in H.
    rewrite length_append in H. lia.
  - injection H as -> H. f_equal. now apply IH.
Qed.

Lemma cooldown_message_seconds (e : exn) (n : Z) :
  cooldown_message e
  = "This command is on cooldown, please retry in " ++ str_of_Z n ++ "s." ->
  Qceiling (retry_after e) = n.
Proof.
  unfold cooldown_message. intros H.
  apply append_cancel_l, append_cancel_r in H.
  apply (f_equal Z_of_str) in H. rewrite !str_of_Z_round_trip in H.
  now injection H.
Qed.

(** X15: the number of seconds can be read back from the cooldown
    message: two CommandOnCooldown errors get the same message exactly
    when their [retry_after] have the same ceiling. *)
Theorem cooldown_message_tells_the_ceiling (e1 e2 : exn) :
  cooldown_message e1 = cooldown_message e2 <->
  Qceiling (retry_after e1) = Qceiling (retry_after e2).
Proof.
  split.
  - intros H. now apply cooldown_message_seconds.
  - intros H. unfold cooldown_message. now rewrite H.
Qed.

(** X16: for a positive [retry_after] the cooldown message announces at
    least one second, never "0s". *)
Theorem cooldown_wait_is_at_least_one_second (e : exn) :
  (0 < retry_after e)%Q ->
  (1 <= Qceiling (retry_after e))%Z /\
  cooldown_message e <> "This command is on cooldown, please retry in 0s.".
Proof.
  intros Hpos.
  assert (Hn : (1 <= Qceiling (retry_after e))%Z).
  { assert (H : (inject_Z 0 < inject_Z (Qceiling (retry_after e)))%Q)
      by (eapply Qlt_le_trans; [exact Hpos|apply Qle_ceiling]).
    rewrite <- Zlt_Qlt in H. lia. }
  split; [exact Hn|].
  intros H. apply (cooldown_message_seconds e 0%Z) in H. lia.
Qed.

Lemma cooldown_wait_is_at_least_one_second_witness :
  (1 <= Qceiling (retry_after Sample.on_cooldown))%Z.
Proof.
  pose proof (cooldown_wait_is_at_least_one_second Sample.on_cooldown eq_refl)
    as [H _].
  exact H.
Defined.

(** ** Deliveries to the log channel *)

Lemma only_resolved_log_traceback bot ctx error :
  only (to_resolved_channel bot) (log_traceback bot ctx error).
Proof.
  intros env tr Htr. rewrite log_traceback_from. cbv zeta.
  destruct (resolved_log_channel bot) as [ch|] eqn:Hch;
    [destruct (env _)|]; cbn [snd];
    rewrite !forallb_app, Htr;
    unfold critical_entries, summary_delivery, traceback_delivery;
    cbn [forallb to_resolved_channel andb];
    rewrite ?Hch, ?Z.eqb_refl; reflexivity.
Qed.

(** X17: the handler delivers to no channel but the one [log_traceback]
    resolves.  Every delivery in the trace goes to the channel found
    for the configured id, and there is none while the bot is not ready
    or the lookup finds nothing. *)
Theorem deliveries_go_to_the_resolved_channel bot ctx error env ch embed :
  In (ChannelSend ch embed) (trace_of env (on_command_error bot ctx error)) ->
  is_ready bot = true /\
  get_channel bot (get_developer_log_channel_id bot) = Some ch.
Proof.
  intros Hin.
  assert (Honly : only (to_resolved_channel bot) (on_command_error bot ctx error)).
  { unfold on_command_error, ctx_send, author_send, ctx_reinvoke. cbv zeta.
    split_tests; auto 6 using only_resolved_log_traceback with handler. }
  specialize (Honly env [] eq_refl). rewrite forallb_forall in Honly.
  specialize (Honly _ Hin). unfold to_resolved_channel, resolved_log_channel in Honly.
  destruct (is_ready bot); [|discriminate].
  destruct (get_channel bot (get_developer_log_channel_id bot)) as [ch0|];
    [|discriminate].
  apply Z.eqb_eq in Honly. now subst ch0.
Qed.

Lemma deliveries_go_to_the_resolved_channel_witness :
  is_ready Sample.bot_ready = true /\
  get_channel Sample.bot_ready (get_developer_log_channel_id Sample.bot_ready)
  = Some 555%Z.
Proof.
  apply (deliveries_go_to_the_resolved_channel
           Sample.bot_ready Sample.ctx_member Sample.value_error Sample.env_ok
           555%Z (traceback_embed (format_exception Sample.value_error))).
  do 3 right. left. reflexivity.
Defined.

(** X18: [log_traceback] makes no call on the invocation context: its
    trace holds log entries and deliveries to the log channel only,
    between two and four of them. *)
Theorem log_traceback_only_logs bot ctx error env :
  forallb is_log_event (trace_of env (log_traceback bot ctx error)) = true /\
  2 <= List.length (trace_of env (log_traceback bot ctx error)) <= 4.
Proof.
  unfold trace_of, run. rewrite log_traceback_from. cbv zeta. cbn [app].
  destruct (resolved_log_channel bot) as [ch|]; [destruct (env _)|];
    cbn [snd]; split; try reflexivity;
    unfold critical_entries; cbn [app List.length]; lia.
Qed.

(** ** A reply that cannot be sent *)

(** X19: in the DatabaseMissingData branch the reply comes first and is
    not guarded: when that send raises, the exception leaves the handler
    and [log_traceback] is not called, so the error is not logged. *)
Theorem database_error_unlogged_when_reply_fails bot ctx env error x :
  hasattr_on_error ctx = false ->
  first_match (getattr_original error) = Some "DatabaseMissingData" ->
  let reply :=
    CtxSend ("Critical database error: " ++ message (getattr_original error)) in
  env [reply] = Some x ->
  run env (on_command_error bot ctx error) = (Raised x, [reply]) /\
  filter is_log_event (trace_of env (on_command_error bot ctx error)) = [].
Proof.
  intros Hon Hfm reply Hsend.
  pose proof (database_branch_run bot ctx env error Hon Hfm) as Hrun.
  cbv zeta in Hrun. fold reply in Hrun. rewrite Hsend in Hrun.
  split; [exact Hrun|].
  unfold trace_of. rewrite Hrun. reflexivity.
Qed.

Lemma database_error_unlogged_when_reply_fails_witness :
  run (fun _ => Some Sample.http_error)
      (on_command_error Sample.bot_ready Sample.ctx_member Sample.database_missing)
  = (Raised Sample.http_error,
     [CtxSend "Critical database error: guild 7 has no row"]).
Proof.
  pose proof (database_error_unlogged_when_reply_fails
                Sample.bot_ready Sample.ctx_member (fun _ => Some Sample.http_error)
                Sample.database_missing Sample.http_error eq_refl eq_refl eq_refl)
    as [H _].
  exact H.
Defined.

(** ** The order of the [isinstance] chain *)

Lemma find_first (f : string -> bool) (l : list string) (c : string) :
  find f l = Some c <->
  exists pre post,
    l = (pre ++ c :: post)%list /\ f c = true /\
    forall d, In d pre -> f d = false.
Proof.
  induction l as [|y l IH]; cbn [find].
  - split; [discriminate|]. intros (pre & post & E & _).
    now destruct pre.
  - destruct (f y) eqn:Hy; split.
    + intros [= ->]. exists [], l. repeat split; [exact Hy|intros d []].
    + intros (pre & post & E & Hc & Hpre).
      destruct pre as [|p pre]; cbn [app] in E; injection E as Ey E;
        [now subst y|].
      subst p. rewrite (Hpre y (or_introl eq_refl)) in Hy. discriminate Hy.
    + intros H. apply IH in H as (pre & post & -> & Hc & Hpre).
      exists (y :: pre), post. repeat split; [exact Hc|].
      intros d [<-|Hd]; [exact Hy|now apply Hpre].
    + intros (pre & post & E & Hc & Hpre).
      destruct pre as [|p pre]; cbn [app] in E; injection E as Ey E.
      * subst y. congruence.
      * apply IH. exists pre, post. repeat split; [exact E|exact Hc|].
        intros d Hd. apply Hpre. now right.
Qed.

Lemma first_match_earliest (e : exn) (c : string) :
  first_match e = Some c <->
  exists pre post,
    handled_classes = (pre ++ c :: post)%list /\
    isinstance e c = true /\
    forall d, In d pre -> isinstance e d = false.
Proof. apply find_first. Qed.

Lemma log_traceback_same_attributes bot ctx e1 e2 :
  same_attributes e1 e2 -> log_traceback bot ctx e1 = log_traceback bot ctx e2.
Proof.
  intros (Hn & Hm & Hs & _ & _ & _ & _ & Hf).
  unfold log_traceback, exception_message, type_repr.
  now rewrite Hn, Hm, Hs, Hf.
Qed.

(** X20: the handler takes the branch of the earliest class of its
    chain the error is an instance of, and membership in the classes
    tested later plays no part.  Let [c] be a tested class and [pre] the
    classes tested before it.  Two errors with the same attributes that
    are both instances of [c] and of no class of [pre] are handled
    identically, call for call and outcome for outcome, whatever
    classes tested after [c] either of them is an instance of. *)
Theorem classes_after_the_first_match_are_ignored
    bot ctx env error1 error2 pre c post :
  let e1 := getattr_original error1 in
  let e2 := getattr_original error2 in
  same_attributes e1 e2 ->
  handled_classes = (pre ++ c :: post)%list ->
  isinstance e1 c = true -> isinstance e2 c = true ->
  (forall d, In d pre -> isinstance e1 d = false /\ isinstance e2 d = false) ->
  run env (on_command_error bot ctx error1) = run env (on_command_error bot ctx error2).
Proof.
  intros e1 e2 Hattr Hsplit Hc1 Hc2 Hpre.
  assert (Hfm1 : first_match e1 = Some c).
  { apply first_match_earliest. exists pre, post. repeat split; try assumption.
    intros d Hd. now apply Hpre. }
  assert (Hfm2 : first_match e2 = Some c).
  { apply first_match_earliest. exists pre, post. repeat split; try assumption.
    intros d Hd. now apply Hpre. }
  pose proof (log_traceback_same_attributes bot ctx e1 e2 Hattr) as Hlog.
  destruct Hattr as (Hn & Hm & Hs & Hp & Hr & Hcode & Hmsg & Hf).
  destruct (hasattr_on_error ctx) eqn:Hon.
  { unfold on_command_error. now rewrite Hon. }
  destruct (first_match_handled e1 c Hfm1) as [Hin _].
  unfold handled_classes in Hin. cbn [In] in Hin.
  repeat (destruct Hin as [<-|Hin];
          [first
             [ rewrite (branch_command_not_found bot ctx error1 Hon Hfm1),
                       (branch_command_not_found bot ctx error2 Hon Hfm2)
             | rewrite (branch_bot_missing_permissions bot ctx error1 Hon Hfm1),
                       (branch_bot_missing_permissions bot ctx error2 Hon Hfm2)
             | rewrite (branch_disabled_command bot ctx error1 Hon Hfm1),
                       (branch_disabled_command bot ctx error2 Hon Hfm2)
             | rewrite (branch_command_on_cooldown bot ctx error1 Hon Hfm1),
                       (branch_command_on_cooldown bot ctx error2 Hon Hfm2)
             | rewrite (branch_missing_permissions bot ctx error1 Hon Hfm1),
                       (branch_missing_permissions bot ctx error2 Hon Hfm2)
             | rewrite (branch_user_input_error bot ctx error1 Hon Hfm1),
                       (branch_user_input_error bot ctx error2 Hon Hfm2)
             | rewrite (branch_no_private_message bot ctx error1 Hon Hfm1),
                       (branch_no_private_message bot ctx error2 Hon Hfm2)
             | rewrite (branch_check_failure bot ctx error1 Hon Hfm1),
                       (branch_check_failure bot ctx error2 Hon Hfm2)
             | rewrite (branch_forbidden bot ctx error1 Hon Hfm1),
                       (branch_forbidden bot ctx error2 Hon Hfm2)
             | rewrite (branch_role_not_found bot ctx error1 Hon Hfm1),
                       (branch_role_not_found bot ctx error2 Hon Hfm2)
             | rewrite (branch_default_guild_role_not_set bot ctx error1 Hon Hfm1),
                       (branch_default_guild_role_not_set bot ctx error2 Hon Hfm2)
             | rewrite (branch_database_missing_data bot ctx error1 Hon Hfm1),
                       (branch_database_missing_data bot ctx error2 Hon Hfm2) ];
           cbv zeta; fold e1 e2; unfold cooldown_message;
           rewrite ?Hs, ?Hp, ?Hr, ?Hcode, ?Hmsg, ?Hlog; reflexivity|]).
  destruct Hin.
Qed.

Lemma classes_after_the_first_match_are_ignored_witness :
  isinstance Sample.no_private_message "CheckFailure" = true /\
  isinstance (with_bases Sample.no_private_message ["CommandError"; "Exception"])
             "CheckFailure" = false /\
  run Sample.env_dm_forbidden
      (on_command_error Sample.bot_ready Sample.ctx_member Sample.no_private_message)
  = run Sample.env_dm_forbidden
      (on_command_error Sample.bot_ready Sample.ctx_member
         (with_bases Sample.no_private_message ["CommandError"; "Exception"])).
Proof.
  split; [reflexivity|]. split; [reflexivity|].
  apply (classes_after_the_first_match_are_ignored
           Sample.bot_ready Sample.ctx_member Sample.env_dm_forbidden
           Sample.no_private_message
           (with_bases Sample.no_private_message ["CommandError"; "Exception"])
           [ "CommandNotFound"; "BotMissingPermissions"; "DisabledCommand";
             "CommandOnCooldown"; "MissingPermissions"; "UserInputError" ]
           "NoPrivateMessage"
           [ "CheckFailure"; "Forbidden"; "RoleNotFound";
             "DefaultGuildRoleNotSet"; "DatabaseMissingData" ]).
  - repeat split.
  - reflexivity.
  - reflexivity.
  - reflexivity.
  - intros d Hd. cbn [In] in Hd.
    repeat (destruct Hd as [<-|Hd]; [split; reflexivity|]). destruct Hd.
Defined.
